(** * synthmerge checkpoint tools: accuracy aggregator and checkpoint differ

    A shallow embedding of [tools/ckpoint_aggregate_accuracy.py] and
    [tools/ckpoint_diff.py], and the properties their specification
    states about them.

    Conventions of the embedding.
    - A CSV record read by [csv.DictReader] is a Python [dict] from
      column names to cell strings.  Dicts keep insertion order, so a
      dict is an association list; [d[k]] raises [KeyError] when [k]
      is absent.
    - Exceptions are values of [exn] carried by the [result] monad.
    - The cells of a row are strings.  A record shorter than the
      header, whose missing cells [csv.DictReader] fills with [None],
      and a record longer than the header are not rows of this model.
    - A process is what the script wrote to standard output, what it
      wrote to standard error and how it ended.  Standard output is
      the sequence of calls made on [print] and on the [csv] writers,
      as far as they succeeded: [DictWriter.writerow] refuses a row
      with a column outside its header with [ValueError].  When a
      process ends in an uncaught exception, the interpreter prints
      the traceback on standard error and the exit status is 1
      ([exit_code]); the record keeps the exception instead of the
      traceback.
    - Python floats are modelled by exact rationals: [a / b] on
      integers is the exact quotient, [x * 100] the exact product, and
      [f"{x:.6f}"] rounds half to even at the sixth decimal.  The
      rounding of binary64 is not modelled, so a printed accuracy can
      differ from the program's in its last digit; what is stated
      about accuracies here does not depend on it.
    - The regular-expression engine behind [re.compile] and
      [Pattern.match] is a parameter of the aggregator;
      [re.search(re.escape(s), t)] is literal substring search.
    - The iteration order of a Python [set] of strings is not fixed by
      the language; it is a parameter ([set_iteration]). *)

From Stdlib Require Import List String Ascii Bool Arith ZArith QArith Qround Lia.
From Stdlib Require Import Permutation DecimalString.
Import ListNotations.

Close Scope Q_scope.
Open Scope string_scope.
Open Scope nat_scope.
Open Scope list_scope.

(** ** The Python runtime the scripts rely on *)

Module Py.

Inductive exn : Type :=
| KeyError (key : string)
| IndexError
| ZeroDivisionError
| FileNotFoundError (filename : string)
| UnboundLocalError (name : string)
| ValueError.

Inductive result (A : Type) : Type :=
| Ok (a : A)
| Raise (e : exn).

Arguments Ok {A} a.
Arguments Raise {A} e.

Definition bind {A B : Type} (m : result A) (k : A -> result B) : result B :=
  match m with
  | Ok a => k a
  | Raise e => Raise e
  end.

(** An insertion-ordered dict with string keys. *)
Definition dict (V : Type) : Type := list (string * V).

(** [d[k]] *)
Fixpoint getitem {V : Type} (d : dict V) (k : string) : result V :=
  match d with
  | [] => Raise (KeyError k)
  | (k', v) :: rest => if String.eqb k' k then Ok v else getitem rest k
  end.

(** [d.get(k, default)] *)
Definition get {V : Type} (d : dict V) (k : string) (default : V) : V :=
  match getitem d k with
  | Ok v => v
  | Raise _ => default
  end.

(** [d.keys()] and [d.values()], in insertion order. *)
Definition keys {V : Type} (d : dict V) : list string := map fst d.
Definition values {V : Type} (d : dict V) : list V := map snd d.

(** [d[k].append(v)] on a [defaultdict(list)]; also the idiom
    [if k not in d: d[k] = []] followed by [d[k].append(v)].  A new
    key goes last. *)
Fixpoint append_at {V : Type} (d : dict (list V)) (k : string) (v : V)
  : dict (list V) :=
  match d with
  | [] => [(k, [v])]
  | (k', vs) :: rest =>
      if String.eqb k' k then (k', vs ++ [v]) :: rest
      else (k', vs) :: append_at rest k v
  end.

(** A row of a CSV file, as [csv.DictReader] yields it. *)
Definition row : Type := dict string.

(** [str(n)] for a non-negative integer. *)
Definition str (n : nat) : string := NilEmpty.string_of_uint (Nat.to_uint n).

(** Calls that write to standard output. *)
Inductive out_event : Type :=
| Print (line : string)
| PrintMissing (prefix : string) (missing : list string)
| WriteCells (cells : list string)
| WriteHeader (fieldnames : list string)
| WriteDict (r : row).

Inductive termination : Type :=
| Exit (code : nat)
| Uncaught (e : exn).

Record process : Type := Process {
  stdout : list out_event;
  stderr : list string;
  status : termination
}.

(** The exit status of the process: that of [sys.exit], 0 at the end
    of the script, 1 after an uncaught exception. *)
Definition exit_code (t : termination) : nat :=
  match t with
  | Exit code => code
  | Uncaught _ => 1
  end.

(** Every column of the row is one of [fieldnames]. *)
Definition fits (fieldnames : list string) (rowdict : row) : bool :=
  forallb (fun k => existsb (String.eqb k) fieldnames) (keys rowdict).

(** [DictWriter.writerow(rowdict)], with [extrasaction] left at
    ['raise']: a row with a column outside [fieldnames] is refused. *)
Definition writerow (fieldnames : list string) (rowdict : row)
  : result out_event :=
  if fits fieldnames rowdict then Ok (WriteDict rowdict)
  else Raise ValueError.

(** [a / b] on non-negative integers. *)
Definition truediv (a b : nat) : result Q :=
  if b =? 0 then Raise ZeroDivisionError
  else Ok (inject_Z (Z.of_nat a) / inject_Z (Z.of_nat b))%Q.

(** Nearest integer, ties to the even one. *)
Definition round_half_even (q : Q) : Z :=
  let k := Qfloor q in
  match (q - inject_Z k ?= 1 # 2)%Q with
  | Lt => k
  | Gt => (k + 1)%Z
  | Eq => if Z.even k then k else (k + 1)%Z
  end.

Definition digits (n : Z) : string := str (Z.to_nat n).

Fixpoint zeros (n : nat) : string :=
  match n with
  | O => ""
  | S n' => String "0" (zeros n')
  end.

Definition zero_pad (width : nat) (s : string) : string :=
  (zeros (width - String.length s) ++ s)%string.

(** [f"{x:.6f}"] *)
Definition format_6f (x : Q) : string :=
  let n := round_half_even (x * 1000000)%Q in
  let a := Z.abs n in
  ((match (x ?= 0)%Q with Lt => "-" | _ => "" end)
     ++ digits (a / 1000000) ++ "." ++ zero_pad 6 (digits (a mod 1000000)))%string.

(** [re.search(re.escape(needle), haystack)]: does [needle] occur in
    [haystack] as a literal substring? *)
Fixpoint contains (needle haystack : string) : bool :=
  if String.prefix needle haystack then true
  else match haystack with
       | EmptyString => false
       | String _ rest => contains needle rest
       end.

(** The grouping loop both scripts run: each row is appended to the
    list stored under its [entry_index]. *)
Fixpoint group_rows (entries : dict (list row)) (rows : list row)
  : result (dict (list row)) :=
  match rows with
  | [] => Ok entries
  | r :: rest =>
      match getitem r "entry_index" with
      | Ok entry_index => group_rows (append_at entries entry_index r) rest
      | Raise e => Raise e
      end
  end.

(** The order in which a [for] loop visits a set of strings: some
    rearrangement of its elements. *)
Record set_iteration : Type := SetIteration {
  iter :> list string -> list string;
  iter_perm : forall l, Permutation l (iter l)
}.

Definition insertion_order : set_iteration :=
  SetIteration (fun l => l) (fun l => Permutation_refl l).

(** A set of strings built from a list: its elements without repeats. *)
Definition set_of (l : list string) : list string := nodup string_dec l.

(** The row has a cell in column [c]. *)
Definition has_column (c : string) (r : row) : Prop :=
  exists v, getitem r c = Ok v.

Definition entry_index_of (r : row) : string := get r "entry_index" "".

(** Does [r] belong to the entry [k]? *)
Definition in_entry (k : string) (r : row) : bool :=
  String.eqb (entry_index_of r) k.

End Py.

Import Py.

Notation "x <- m ;; k" := (Py.bind m (fun x => k))
  (at level 61, m at next level, right associativity).

(** ** tools/ckpoint_aggregate_accuracy.py *)

Module Aggregate.

(** [any(row[field] == "true" for row in entry_rows)] *)
Fixpoint any_true (field : string) (entry_rows : list row) : result bool :=
  match entry_rows with
  | [] => Ok false
  | r :: rest =>
      v <- getitem r field ;;
      if String.eqb v "true" then Ok true else any_true field rest
  end.

(** [sum(1 for entry_rows in values if any(...))] *)
Fixpoint count_correct (field : string) (groups : list (list row))
  : result nat :=
  match groups with
  | [] => Ok 0
  | entry_rows :: rest =>
      b <- any_true field entry_rows ;;
      n <- count_correct field rest ;;
      Ok ((if b then 1 else 0) + n)
  end.

Definition calculate_aggregate_stats (rows : list row) : result (Q * Q * Q) :=
  entries <- group_rows [] rows ;;
  let total := List.length entries in
  if total =? 0 then Ok (0, 0, 0)%Q
  else
    correct <- count_correct "correct" (values entries) ;;
    correct_aligned <- count_correct "correct_aligned" (values entries) ;;
    correct_stripped <- count_correct "correct_stripped" (values entries) ;;
    accuracy <- truediv correct total ;;
    accuracy_aligned <- truediv correct_aligned total ;;
    accuracy_stripped <- truediv correct_stripped total ;;
    Ok (accuracy, accuracy_aligned, accuracy_stripped).

Definition usage : string :=
  "Usage: python aggregate_stats.py <model_regex> <file1.csv> [file2.csv] ...".

Definition header : list string :=
  ["accuracy"; "accuracy_aligned"; "accuracy_stripped"].

(** The data record [main] writes for a triple of accuracies. *)
Definition accuracy_cells (stats : Q * Q * Q) : list string :=
  let '(accuracy, accuracy_aligned, accuracy_stripped) := stats in
  [format_6f (accuracy * 100)%Q;
   format_6f (accuracy_aligned * 100)%Q;
   format_6f (accuracy_stripped * 100)%Q].

(** Following the specification: the distinct [entry_index] values,
    the groups with at least one row whose field is exactly ["true"],
    and the accuracy as the ratio of their numbers, [0] when there is
    no group. *)
Definition entry_indices (rows : list row) : list string :=
  set_of (map entry_index_of rows).

Definition is_true (field : string) (r : row) : bool :=
  String.eqb (get r field "") "true".

Definition group_correct (field : string) (rows : list row) (k : string)
  : bool :=
  existsb (is_true field) (filter (in_entry k) rows).

Definition correct_groups (field : string) (rows : list row) : nat :=
  List.length (filter (group_correct field rows) (entry_indices rows)).

Definition accuracy_of (field : string) (rows : list row) : Q :=
  if List.length (entry_indices rows) =? 0 then 0%Q
  else (inject_Z (Z.of_nat (correct_groups field rows))
        / inject_Z (Z.of_nat (List.length (entry_indices rows))))%Q.

(** The columns [calculate_aggregate_stats] reads. *)
Definition aggregator_row (r : row) : Prop :=
  has_column "entry_index" r /\ has_column "correct" r /\
  has_column "correct_aligned" r /\ has_column "correct_stripped" r.

Section Main.

(** The regular-expression engine and the files on disk. *)
Variable pattern : Type.
Variable re_compile : string -> pattern + string.
Variable re_match : pattern -> string -> bool.
Variable files : string -> option (list row).

(** The filtering loop of [read_csv]. *)
Fixpoint filter_model (model_filter : pattern) (reader : list row)
  : result (list row) :=
  match reader with
  | [] => Ok []
  | r :: rest =>
      model <- getitem r "model" ;;
      data <- filter_model model_filter rest ;;
      Ok (if re_match model_filter model then r :: data else data)
  end.

Definition read_csv (filename : string) (model_filter : pattern)
  : result (list row) :=
  match files filename with
  | None => Raise (FileNotFoundError filename)
  | Some reader => filter_model model_filter reader
  end.

(** The loop over [sys.argv[2:]]. *)
Fixpoint read_all (model_filter : pattern) (filenames : list string)
  (all_rows : list row) : result (list row) :=
  match filenames with
  | [] => Ok all_rows
  | filename :: rest =>
      rows <- read_csv filename model_filter ;;
      read_all model_filter rest (all_rows ++ rows)
  end.

Definition main (argv : list string) : process :=
  if List.length argv <? 3 then
    Process [Print usage] [] (Exit 1)
  else
    match re_compile (nth 1 argv "") with
    | inr e => Process [] [("Invalid regex: " ++ e)%string] (Exit 1)
    | inl model_filter =>
        match read_all model_filter (skipn 2 argv) [] with
        | Raise e => Process [] [] (Uncaught e)
        | Ok all_rows =>
            match calculate_aggregate_stats all_rows with
            | Raise e => Process [] [] (Uncaught e)
            | Ok stats =>
                Process
                  [WriteCells header; WriteCells (accuracy_cells stats)]
                  [("Total entries: " ++ str (List.length all_rows))%string]
                  (Exit 0)
            end
        end
    end.

End Main.

End Aggregate.

(** ** tools/ckpoint_diff.py *)

Module Diff.

(** [all(first_row[field] == row[field] for field in fields)] *)
Fixpoint all_fields_equal (first_row r : row) (fields : list string)
  : result bool :=
  match fields with
  | [] => Ok true
  | field :: rest =>
      a <- getitem first_row field ;;
      b <- getitem r field ;;
      if String.eqb a b then all_fields_equal first_row r rest else Ok false
  end.

(** The loop over [group[1:]]; the result is [all_equal]. *)
Fixpoint rows_agree (first_row : row) (tail : list row) (fields : list string)
  : result bool :=
  match tail with
  | [] => Ok true
  | r :: rest =>
      b <- all_fields_equal first_row r fields ;;
      if b then rows_agree first_row rest fields else Ok false
  end.

(** One turn of [for group in group1, group2]; [group[0]] raises on an
    empty group. *)
Definition group_consistent (group : list row) (fields : list string)
  : result bool :=
  match group with
  | [] => Raise IndexError
  | first_row :: tail => rows_agree first_row tail fields
  end.

Definition all_equal (group1 group2 : list row) (fields : list string)
  : result bool :=
  b <- group_consistent group1 fields ;;
  if b then group_consistent group2 fields else Ok false.

(** [any(r[field] != expected and (1 or ...) for field in fields)] and
    [any((1 or ...) and r[field] != expected for field in fields)]:
    [1 or e] is [1] and never evaluates [e], so only [r[field]] is
    read. *)
Fixpoint any_field_not (r : row) (expected : string) (fields : list string)
  : result bool :=
  match fields with
  | [] => Ok false
  | field :: rest =>
      v <- getitem r field ;;
      if negb (String.eqb v expected) then Ok true
      else any_field_not r expected rest
  end.

(** The loop over [zip(group1, group2)].  The result is
    [(difference1, difference2, row2)], where [row2] is the loop
    variable as the loop leaves it. *)
Fixpoint compare_pairs (pairs : list (row * row)) (fields : list string)
  (row2_var : option row) : result (bool * bool * option row) :=
  match pairs with
  | [] => Ok (true, true, row2_var)
  | (row1, row2) :: rest =>
      c1 <- any_field_not row1 "false" fields ;;
      if c1 then Ok (false, true, Some row2)
      else
        c2 <- any_field_not row2 "true" fields ;;
        if c2 then Ok (true, false, Some row2)
        else compare_pairs rest fields (Some row2)
  end.

(** The body of [for entry_index in all_entry_indices]: [Some row2]
    when a row is appended to [differing_rows], [None] when the entry
    is passed over.  [row2] is bound whenever it is read, since
    [group[0]] has raised on empty groups before. *)
Definition entry_verdict (group1 group2 : list row) (fields : list string)
  : result (option row) :=
  if negb (List.length group1 =? List.length group2) then Ok None
  else
    eq <- all_equal group1 group2 fields ;;
    if negb eq then Ok None
    else
      cmp <- compare_pairs (combine group1 group2) fields None ;;
      let '(difference1, difference2, row2) := cmp in
      if difference1 && difference2 then
        match row2 with
        | Some r => Ok (Some r)
        | None => Raise (UnboundLocalError "row2")
        end
      else Ok None.

Fixpoint compare_entries (grouped_rows1 grouped_rows2 : dict (list row))
  (fields : list string) (indices : list string) (differing_rows : list row)
  : result (list row) :=
  match indices with
  | [] => Ok differing_rows
  | entry_index :: rest =>
      v <- entry_verdict (get grouped_rows1 entry_index [])
                         (get grouped_rows2 entry_index []) fields ;;
      compare_entries grouped_rows1 grouped_rows2 fields rest
        match v with
        | Some row2 => differing_rows ++ [row2]
        | None => differing_rows
        end
  end.

Definition find_differing_rows (order : set_iteration)
  (rows1 rows2 : list row) (fields : list string) : result (list row) :=
  grouped_rows1 <- group_rows [] rows1 ;;
  grouped_rows2 <- group_rows [] rows2 ;;
  let all_entry_indices :=
    order (set_of (keys grouped_rows1 ++ keys grouped_rows2)) in
  compare_entries grouped_rows1 grouped_rows2 fields all_entry_indices [].

(** The inner [for test_row in test_rows] of [main]: the reference row
    written in place of the differing row, or [None] when the loop
    falls through to its [else]. *)
Fixpoint search_reference (commit : string) (test_rows : list row)
  : result (option row) :=
  match test_rows with
  | [] => Ok None
  | test_row :: rest =>
      desc <- getitem test_row "Description" ;;
      if contains commit desc then Ok (Some test_row)
      else search_reference commit rest
  end.

(** The loop over [differing_rows] in [main], for a writer with the
    given [fieldnames]: what the writer has written so far, and
    [count] or the exception that ended the loop. *)
Fixpoint write_rows (fieldnames : list string)
  (test_rows differing_rows : list row)
  (written : list out_event) (count : nat) : list out_event * result nat :=
  match differing_rows with
  | [] => (written, Ok count)
  | r :: rest =>
      match (commit <- getitem r "patch_commit_hash" ;;
             search_reference commit test_rows) with
      | Raise e => (written, Raise e)
      | Ok (Some test_row) =>
          match writerow fieldnames test_row with
          | Raise e => (written, Raise e)
          | Ok ev =>
              write_rows fieldnames test_rows rest (written ++ [ev])
                (count + 1)
          end
      | Ok None =>
          match writerow fieldnames r with
          | Raise e => (written, Raise e)
          | Ok ev =>
              write_rows fieldnames test_rows rest (written ++ [ev]) count
          end
      end
  end.

(** [main] from [count = 0] on. *)
Definition report (differing_rows test_rows : list row) : process :=
  match differing_rows with
  | [] => Process [] [str 0] (Exit 0)
  | _ :: _ =>
      match test_rows with
      | [] => Process [] [] (Uncaught IndexError)
      | first_row :: _ =>
          match write_rows (keys first_row) test_rows differing_rows
                  [WriteHeader (keys first_row)] 0 with
          | (written, Ok count) => Process written [str count] (Exit 0)
          | (written, Raise e) => Process written [] (Uncaught e)
          end
      end
  end.

Definition usage : string :=
  "Usage: python diff_csv.py <test.csv> <file1.csv> <file2.csv> <field1> [field2] ...".

Definition read_csv (files : string -> option (list row)) (filename : string)
  : result (list row) :=
  match files filename with
  | None => Raise (FileNotFoundError filename)
  | Some data => Ok data
  end.

(** [set(fields) - all_fields] *)
Definition missing_fields (rows1 rows2 : list row) (fields : list string)
  : list string :=
  let all_fields := set_of (flat_map keys (rows1 ++ rows2)) in
  filter (fun f => negb (existsb (String.eqb f) all_fields)) (set_of fields).

Definition main (order : set_iteration) (files : string -> option (list row))
  (argv : list string) : process :=
  if List.length argv <? 5 then Process [Print usage] [] (Exit 1)
  else
    let test_file := nth 1 argv "" in
    let file1 := nth 2 argv "" in
    let file2 := nth 3 argv "" in
    let fields := skipn 4 argv in
    match (rows1 <- read_csv files file1 ;;
           rows2 <- read_csv files file2 ;;
           test_rows <- read_csv files test_file ;;
           Ok (rows1, rows2, test_rows)) with
    | Raise e => Process [] [] (Uncaught e)
    | Ok (rows1, rows2, test_rows) =>
        match missing_fields rows1 rows2 fields with
        | (_ :: _) as missing =>
            Process
              [PrintMissing "Error: Fields not found in CSV files: "
                            (order missing)]
              [] (Exit 1)
        | [] =>
            match find_differing_rows order rows1 rows2 fields with
            | Raise e => Process [] [] (Uncaught e)
            | Ok differing_rows => report differing_rows test_rows
            end
        end
    end.

(** How many rows the [DictWriter] was given. *)
Fixpoint rows_written (out : list out_event) : nat :=
  match out with
  | [] => 0
  | WriteDict _ :: rest => S (rows_written rest)
  | _ :: rest => rows_written rest
  end.

(** The row the [zip] loop leaves in [row2] when it runs to its end
    over groups of equal length. *)
Definition row2_after (group2 : list row) (row2_var : option row)
  : option row :=
  match group2 with
  | [] => row2_var
  | _ :: _ => Some (last group2 [])
  end.

(** The vocabulary of the specification. *)

(** The row group of an entry in one file. *)
Definition entry_rows (idx : string) (rows : list row) : list row :=
  filter (in_entry idx) rows.

(** An entry is reported when one of the collected rows is a row of
    that entry. *)
Definition reported (idx : string) (differing_rows : list row) : Prop :=
  exists r, In r differing_rows /\ getitem r "entry_index" = Ok idx.

(** Some row of the group disagrees with the first row of the group on
    a requested field. *)
Definition inconsistent (fields : list string) (group : list row) : Prop :=
  exists first_row tail r field,
    group = first_row :: tail /\ In r tail /\ In field fields /\
    getitem r field <> getitem first_row field.

(** The columns [find_differing_rows] reads. *)
Definition differ_row (fields : list string) (r : row) : Prop :=
  has_column "entry_index" r /\ Forall (fun f => has_column f r) fields.

(** Every requested field of [r] holds [expected]. *)
Definition fields_are (expected : string) (fields : list string) (r : row)
  : Prop :=
  forall f, In f fields -> getitem r f = Ok expected.



(** The first reference row, in file order, whose [Description]
    contains the [patch_commit_hash] of [r]. *)
Definition reference_for (test_rows : list row) (r : row) : option row :=
  find (fun test_row =>
          contains (get r "patch_commit_hash" "")
                   (get test_row "Description" ""))
       test_rows.

Definition row_written_for (test_rows : list row) (r : row) : row :=
  match reference_for test_rows r with
  | Some test_row => test_row
  | None => r
  end.

Definition has_reference (test_rows : list row) (r : row) : bool :=
  match reference_for test_rows r with
  | Some _ => true
  | None => false
  end.

(** The columns of [r] are columns of the first reference row, whose
    columns are the header of the output. *)
Definition columns_fit (test_rows : list row) (r : row) : Prop :=
  fits (keys (hd [] test_rows)) r = true.

(** What the writer accepts of a run: the rows of the reference file
    have the columns of its first row, as the rows of one file have,
    and so has every differing row that no reference row replaces. *)
Definition writer_accepts (test_rows differing_rows : list row) : Prop :=
  Forall (columns_fit test_rows) test_rows /\
  Forall (fun r => has_reference test_rows r = false ->
                   columns_fit test_rows r)
         differing_rows.

(** A run of the differ that gets past its argument checks: it has
    read [rows1], [rows2] and [test_rows], every requested field is a
    column of some row, and [find_differing_rows] has returned
    [differing_rows]. *)
Definition passes_checks (order : set_iteration)
  (files : string -> option (list row)) (argv : list string)
  (rows1 rows2 test_rows differing_rows : list row) : Prop :=
  5 <= List.length argv /\
  files (nth 2 argv "") = Some rows1 /\
  files (nth 3 argv "") = Some rows2 /\
  files (nth 1 argv "") = Some test_rows /\
  missing_fields rows1 rows2 (skipn 4 argv) = [] /\
  find_differing_rows order rows1 rows2 (skipn 4 argv) = Ok differing_rows.

End Diff.

(** ** Concrete runs

    The rows and files of the specification's end-to-end scenarios,
    and a small regular-expression engine that only knows literal
    patterns, for running the aggregator. *)

Module Fixtures.

Definition literal_compile (regex : string) : string + string :=
  if String.eqb regex "(" then
    inr "missing ), unterminated subpattern at position 0"
  else inl regex.

Definition literal_match (literal model : string) : bool :=
  String.prefix literal model.

(** Scenario A. *)
Definition gpt4_entry1 : row :=
  [("entry_index", "1"); ("model", "gpt-4"); ("correct", "true");
   ("correct_aligned", "false"); ("correct_stripped", "true")].

Definition gpt4_entry2 : row :=
  [("entry_index", "2"); ("model", "gpt-4"); ("correct", "false");
   ("correct_aligned", "false"); ("correct_stripped", "false")].

Definition results_csv (filename : string) : option (list row) :=
  if String.eqb filename "results.csv" then Some [gpt4_entry1; gpt4_entry2]
  else None.

Definition aggregate (argv : list string) : process :=
  Aggregate.main string literal_compile literal_match results_csv argv.

(** Scenario B. *)
Definition file1_row : row :=
  [("entry_index", "5"); ("patch_commit_hash", "abc123"); ("field", "false")].

Definition file2_row : row :=
  [("entry_index", "5"); ("patch_commit_hash", "abc123"); ("field", "true")].

Definition unrelated_reference : row :=
  [("entry_index", "7"); ("patch_commit_hash", "fff000"); ("field", "true");
   ("Description", "Fix for commit 9d1e77")].

Definition matching_reference : row :=
  [("entry_index", "8"); ("patch_commit_hash", "eee111"); ("field", "true");
   ("Description", "Backport of abc123 to stable")].

Definition scenario_b (filename : string) : option (list row) :=
  if String.eqb filename "test.csv" then Some [unrelated_reference]
  else if String.eqb filename "file1.csv" then Some [file1_row]
  else if String.eqb filename "file2.csv" then Some [file2_row]
  else None.

Definition scenario_b_argv : list string :=
  ["ckpoint_diff.py"; "test.csv"; "file1.csv"; "file2.csv"; "field"].

(** Two rows for entry 5 in the first file that disagree on [field]. *)
Definition file1_row_true : row :=
  [("entry_index", "5"); ("patch_commit_hash", "abc123"); ("field", "true")].

(** Scenario B with a second reference row that mentions the hash. *)
Definition with_match (filename : string) : option (list row) :=
  if String.eqb filename "test.csv" then
    Some [unrelated_reference; matching_reference]
  else scenario_b filename.



(** Scenario B with a reference file that has a header and no row. *)
Definition empty_reference (filename : string) : option (list row) :=
  if String.eqb filename "test.csv" then Some [] else scenario_b filename.

End Fixtures.

(** ** Vocabulary for the properties beyond the specification *)

Module Beyond.

(** The test [read_csv] of the aggregator applies to a row. *)
Definition kept {pattern : Type} (re_match : pattern -> string -> bool)
  (model_filter : pattern) (r : row) : bool :=
  re_match model_filter (get r "model" "").

(** The rows the aggregator keeps from a list of files, file after
    file. *)
Definition kept_rows {pattern : Type} (re_match : pattern -> string -> bool)
  (files : string -> option (list row)) (model_filter : pattern)
  (filenames : list string) : list row :=
  flat_map (fun filename =>
              match files filename with
              | Some reader => filter (kept re_match model_filter) reader
              | None => []
              end)
           filenames.

(** No row holds ["true"] in the field. *)
Definition never_true (field : string) (rows : list row) : Prop :=
  forall r, In r rows -> getitem r field <> Ok "true".

(** Every entry has a row that holds ["true"] in the field. *)
Definition true_in_every_entry (field : string) (rows : list row) : Prop :=
  forall r, In r rows ->
    exists r', In r' rows /\ entry_index_of r' = entry_index_of r /\
               getitem r' field = Ok "true".

(** The exception is a [KeyError]. *)
Definition is_KeyError (e : exn) : Prop := exists k, e = KeyError k.

(** What one turn of the loop over the entries appends. *)
Definition appended (grouped_rows1 grouped_rows2 : dict (list row))
  (fields : list string) (entry_index : string) : list row :=
  match Diff.entry_verdict (get grouped_rows1 entry_index [])
          (get grouped_rows2 entry_index []) fields with
  | Ok (Some row2) => [row2]
  | _ => []
  end.

(** The rows handed to [DictWriter.writerow]. *)
Fixpoint dicts_written (out : list out_event) : list row :=
  match out with
  | [] => []
  | WriteDict r :: rest => r :: dicts_written rest
  | _ :: rest => dicts_written rest
  end.

(** Rows for concrete runs. *)
Definition no_model_row : row := [("entry_index", "3"); ("correct", "true")].

Definition no_index_row : row :=
  [("model", "gpt-4"); ("correct", "true"); ("correct_aligned", "true");
   ("correct_stripped", "true")].

Definition llama_entry1 : row :=
  [("entry_index", "1"); ("model", "llama-3"); ("correct", "false");
   ("correct_aligned", "true"); ("correct_stripped", "false")].

Definition two_files (filename : string) : option (list row) :=
  if String.eqb filename "a.csv" then
    Some [Fixtures.gpt4_entry1; llama_entry1]
  else if String.eqb filename "b.csv" then Some [Fixtures.gpt4_entry2]
  else None.

Definition empty_hash_row : row :=
  [("entry_index", "5"); ("patch_commit_hash", ""); ("field", "true")].

Definition entry6_false : row :=
  [("entry_index", "6"); ("patch_commit_hash", "def456"); ("field", "false")].

Definition entry6_true : row :=
  [("entry_index", "6"); ("patch_commit_hash", "def456"); ("field", "true")].

(** A loop that visits the elements of a set last to first. *)
Definition reverse_order : set_iteration :=
  SetIteration (@rev string) (@Permutation_rev string).

End Beyond.

(** * Properties *)

(** ** Dicts and the grouping loop *)

Section GroupingFacts.

Lemma bind_Ok {A B : Type} (m : result A) (k : A -> result B) (b : B) :
  Py.bind m k = Ok b -> exists a, m = Ok a /\ k a = Ok b.
Proof.
  destruct m as [a | e]; simpl; intros H; [eauto | discriminate].
Qed.

Lemma getitem_get {V : Type} (d : dict V) (k : string) (v default : V) :
  getitem d k = Ok v -> get d k default = v.
Proof.
  unfold get. intros ->. reflexivity.
Qed.

Lemma get_cons {V : Type} (k0 : string) (v0 : V) (rest : dict V)
  (k : string) (default : V) :
  get ((k0, v0) :: rest) k default =
  if String.eqb k0 k then v0 else get rest k default.
Proof.
  unfold get. simpl. destruct (String.eqb k0 k); reflexivity.
Qed.

Lemma get_append_at {V : Type} (d : dict (list V)) (k k' : string) (v : V) :
  get (append_at d k v) k' [] =
  if String.eqb k k' then get d k [] ++ [v] else get d k' [].
Proof.
  induction d as [| [k0 vs] rest IH]; simpl.
  - rewrite get_cons. destruct (String.eqb k k'); reflexivity.
  - destruct (String.eqb_spec k0 k) as [E0 | N0].
    + subst k0. rewrite !get_cons, String.eqb_refl.
      destruct (String.eqb k k'); reflexivity.
    + rewrite !get_cons, IH.
      destruct (String.eqb_spec k0 k') as [E1 | N1];
        destruct (String.eqb_spec k k') as [E2 | N2];
        destruct (String.eqb_spec k0 k) as [E3 | N3];
        subst; try reflexivity; contradiction.
Qed.

Lemma keys_append_at {V : Type} (d : dict (list V)) (k k' : string) (v : V) :
  In k' (keys (append_at d k v)) <-> k' = k \/ In k' (keys d).
Proof.
  induction d as [| [k0 vs] rest IH]; simpl.
  - intuition congruence.
  - destruct (String.eqb_spec k0 k) as [-> | Hk0]; simpl.
    + intuition congruence.
    + unfold keys in IH. rewrite IH. intuition congruence.
Qed.

Lemma NoDup_keys_append_at {V : Type} (d : dict (list V)) (k : string) (v : V) :
  NoDup (keys d) -> NoDup (keys (append_at d k v)).
Proof.
  induction d as [| [k0 vs] rest IH]; simpl; intros Hnd.
  - constructor; [intros [] | constructor].
  - destruct (String.eqb_spec k0 k) as [-> | Hk0]; simpl.
    + exact Hnd.
    + inversion Hnd as [| ? ? Hnotin Hrest]; subst.
      constructor.
      * intros Hin. apply keys_append_at in Hin.
        destruct Hin as [-> | Hin]; [congruence | exact (Hnotin Hin)].
      * apply IH, Hrest.
Qed.

(** A dict without repeated keys is read back key by key. *)
Lemma values_by_keys {V : Type} (d : dict (list V)) :
  NoDup (keys d) -> values d = map (fun k => get d k []) (keys d).
Proof.
  induction d as [| [k0 vs] rest IH]; simpl; intros Hnd; [reflexivity |].
  inversion Hnd as [| ? ? Hnotin Hrest]; subst.
  rewrite get_cons, String.eqb_refl. f_equal.
  rewrite (IH Hrest). apply map_ext_in.
  intros k Hk. rewrite get_cons.
  destruct (String.eqb_spec k0 k) as [-> | _]; [contradiction | reflexivity].
Qed.

Lemma group_rows_Ok (rows : list row) :
  forall entries d,
    group_rows entries rows = Ok d ->
    Forall (has_column "entry_index") rows.
Proof.
  induction rows as [| r rest IH]; simpl; intros entries d H.
  - constructor.
  - destruct (getitem r "entry_index") as [k | e] eqn:Hk; [| discriminate].
    constructor; [exists k; exact Hk | eapply IH; exact H].
Qed.

(** What the grouping loop builds: under every key, the rows of that
    entry in their order of appearance. *)
Lemma group_rows_spec (rows : list row) :
  forall entries,
    Forall (has_column "entry_index") rows ->
    exists d,
      group_rows entries rows = Ok d /\
      (forall k, get d k [] = get entries k [] ++ filter (in_entry k) rows) /\
      (forall k, In k (keys d) <->
                 In k (keys entries) \/ In k (map entry_index_of rows)) /\
      (NoDup (keys entries) -> NoDup (keys d)).
Proof.
  induction rows as [| r rest IH]; simpl; intros entries Hwf.
  - exists entries. repeat split.
    + intros k. symmetry. apply app_nil_r.
    + intros H; left; exact H.
    + intros [H | []]; exact H.
    + trivial.
  - inversion Hwf as [| ? ? [k0 Hk0] Hrest]; subst.
    rewrite Hk0.
    destruct (IH (append_at entries k0 r) Hrest) as (d & Hd & Hget & Hkeys & Hnd).
    assert (Hidx : entry_index_of r = k0)
      by (unfold entry_index_of; apply getitem_get; exact Hk0).
    exists d. repeat split.
    + exact Hd.
    + intros k. rewrite Hget, get_append_at. unfold in_entry at 2.
      rewrite Hidx.
      destruct (String.eqb_spec k0 k) as [-> | _]; simpl.
      * rewrite <- app_assoc. reflexivity.
      * reflexivity.
    + rewrite Hkeys, keys_append_at, Hidx. intuition.
    + rewrite Hkeys, keys_append_at, Hidx. intuition.
    + intros H. apply Hnd, NoDup_keys_append_at, H.
Qed.

End GroupingFacts.

(** ** Lists up to rearrangement *)

Section PermutationFacts.

Context {A : Type}.

Lemma filter_Permutation (f : A -> bool) (l l' : list A) :
  Permutation l l' -> Permutation (filter f l) (filter f l').
Proof.
  induction 1 as [| x l l' _ IH | x y l | l l' l'' _ IH1 _ IH2]; simpl.
  - constructor.
  - destruct (f x); [constructor |]; exact IH.
  - destruct (f x), (f y); try reflexivity. constructor.
  - etransitivity; eassumption.
Qed.

Lemma existsb_Permutation (f : A -> bool) (l l' : list A) :
  Permutation l l' -> existsb f l = existsb f l'.
Proof.
  induction 1 as [| x l l' _ IH | x y l | l l' l'' _ IH1 _ IH2]; simpl.
  - reflexivity.
  - rewrite IH. reflexivity.
  - destruct (f x), (f y); reflexivity.
  - congruence.
Qed.

Lemma count_Permutation (f g : A -> bool) (l l' : list A) :
  Permutation l l' -> (forall x, f x = g x) ->
  List.length (filter f l) = List.length (filter g l').
Proof.
  intros Hperm Hext. rewrite (filter_ext f g Hext).
  apply Permutation_length, filter_Permutation, Hperm.
Qed.

Lemma filter_length_le (f : A -> bool) (l : list A) :
  List.length (filter f l) <= List.length l.
Proof.
  induction l as [| x l IH]; simpl; [lia |].
  destruct (f x); simpl; lia.
Qed.

End PermutationFacts.

Lemma set_of_Permutation (l l' : list string) :
  Permutation l l' -> Permutation (set_of l) (set_of l').
Proof.
  intros Hperm. unfold set_of.
  apply NoDup_Permutation; try apply NoDup_nodup.
  intros x. rewrite !nodup_In. split; apply Permutation_in.
  - exact Hperm.
  - symmetry. exact Hperm.
Qed.

(** ** The aggregator *)

Section AggregateFacts.

Import Aggregate.

Lemma any_true_spec (field : string) (g : list row) :
  Forall (has_column field) g ->
  any_true field g = Ok (existsb (is_true field) g).
Proof.
  induction 1 as [| r g [v Hv] _ IH]; simpl; [reflexivity |].
  rewrite Hv. simpl. unfold is_true at 1.
  rewrite (getitem_get _ _ _ "" Hv).
  destruct (String.eqb v "true"); simpl; [reflexivity | exact IH].
Qed.

Lemma count_correct_spec (field : string) (groups : list (list row)) :
  Forall (Forall (has_column field)) groups ->
  count_correct field groups =
  Ok (List.length (filter (existsb (is_true field)) groups)).
Proof.
  induction 1 as [| g groups Hg _ IH]; simpl; [reflexivity |].
  rewrite (any_true_spec _ _ Hg), IH. simpl.
  destruct (existsb (is_true field) g); reflexivity.
Qed.

Lemma entry_indices_Permutation (rows rows' : list row) :
  Permutation rows rows' ->
  Permutation (entry_indices rows) (entry_indices rows').
Proof.
  intros Hperm. apply set_of_Permutation, Permutation_map, Hperm.
Qed.

Lemma grouped_keys (rows : list row) (d : dict (list row)) :
  group_rows [] rows = Ok d ->
  Permutation (keys d) (entry_indices rows) /\
  values d = map (fun k => filter (in_entry k) rows) (keys d).
Proof.
  intros Hd.
  destruct (group_rows_spec rows [] (group_rows_Ok _ _ _ Hd))
    as (d' & Hd' & Hget & Hkeys & Hnd).
  assert (d' = d) by congruence. subst d'.
  specialize (Hnd (NoDup_nil _)). split.
  - apply NoDup_Permutation; [exact Hnd | apply NoDup_nodup |].
    intros k. unfold entry_indices, set_of. rewrite nodup_In, Hkeys.
    simpl. intuition.
  - rewrite (values_by_keys d Hnd). apply map_ext. intros k. apply Hget.
Qed.

Lemma count_correct_groups (field : string) (rows : list row)
  (d : dict (list row)) :
  group_rows [] rows = Ok d ->
  Forall (has_column field) rows ->
  count_correct field (values d) = Ok (correct_groups field rows).
Proof.
  intros Hd Hwf. destruct (grouped_keys rows d Hd) as [Hperm Hvalues].
  rewrite count_correct_spec.
  - f_equal. rewrite Hvalues, filter_map_swap, length_map.
    apply count_Permutation; [exact Hperm | reflexivity].
  - rewrite Hvalues. apply Forall_forall. intros g Hg.
    apply in_map_iff in Hg. destruct Hg as (k & <- & _).
    apply Forall_forall. intros r Hr. apply filter_In in Hr.
    rewrite Forall_forall in Hwf. apply Hwf, Hr.
Qed.

(** [calculate_aggregate_stats] computes the three ratios of the
    specification. *)
Lemma calculate_aggregate_stats_spec (rows : list row) :
  Forall aggregator_row rows ->
  calculate_aggregate_stats rows =
  Ok (accuracy_of "correct" rows, accuracy_of "correct_aligned" rows,
      accuracy_of "correct_stripped" rows).
Proof.
  intros Hwf.
  assert (Hidx : Forall (has_column "entry_index") rows)
    by (eapply Forall_impl; [| exact Hwf]; intros r H; apply H).
  assert (Hc : Forall (has_column "correct") rows)
    by (eapply Forall_impl; [| exact Hwf]; intros r H; apply H).
  assert (Ha : Forall (has_column "correct_aligned") rows)
    by (eapply Forall_impl; [| exact Hwf]; intros r H; apply H).
  assert (Hs : Forall (has_column "correct_stripped") rows)
    by (eapply Forall_impl; [| exact Hwf]; intros r H; apply H).
  destruct (group_rows_spec rows [] Hidx) as (d & Hd & _).
  unfold calculate_aggregate_stats. rewrite Hd. simpl.
  destruct (grouped_keys rows d Hd) as [Hperm _].
  assert (Hlen : List.length d = List.length (entry_indices rows))
    by (rewrite <- (Permutation_length Hperm); unfold keys;
        symmetry; apply length_map).
  unfold accuracy_of. rewrite <- Hlen.
  destruct (List.length d =? 0) eqn:Hzero; [reflexivity |].
  rewrite !(count_correct_groups _ rows d Hd) by assumption.
  simpl. unfold truediv. rewrite Hzero. reflexivity.
Qed.

Lemma accuracy_of_Permutation (field : string) (rows rows' : list row) :
  Permutation rows rows' -> accuracy_of field rows = accuracy_of field rows'.
Proof.
  intros Hperm.
  assert (Hn : List.length (entry_indices rows) =
               List.length (entry_indices rows'))
    by (apply Permutation_length, entry_indices_Permutation, Hperm).
  assert (Hc : correct_groups field rows = correct_groups field rows').
  { unfold correct_groups. apply count_Permutation.
    - apply entry_indices_Permutation, Hperm.
    - intros k. unfold group_correct.
      apply existsb_Permutation, filter_Permutation, Hperm. }
  unfold accuracy_of. rewrite Hn, Hc. reflexivity.
Qed.

Lemma accuracy_of_bounds (field : string) (rows : list row) :
  (0 <= accuracy_of field rows <= 1)%Q.
Proof.
  unfold accuracy_of.
  destruct (List.length (entry_indices rows) =? 0) eqn:Hzero.
  - split; discriminate.
  - apply Nat.eqb_neq in Hzero.
    assert (Hle : correct_groups field rows <= List.length (entry_indices rows))
      by apply filter_length_le.
    assert (Hpos : (0 < inject_Z (Z.of_nat (List.length (entry_indices rows))))%Q)
      by (rewrite <- (Zlt_Qlt 0); lia).
    split.
    + apply Qle_shift_div_l; [exact Hpos |].
      rewrite Qmult_0_l, <- (Zle_Qle 0). lia.
    + apply Qle_shift_div_r; [exact Hpos |].
      rewrite Qmult_1_l, <- Zle_Qle. lia.
Qed.

End AggregateFacts.

(** ** What the specification says of the aggregator *)

Section AggregateClaims.

Import Aggregate.

Variable pattern : Type.
Variable re_compile : string -> pattern + string.
Variable re_match : pattern -> string -> bool.
Variable files : string -> option (list row).

(** C3, as the code has it: with fewer than two command-line arguments
    the aggregator prints its usage message to standard output, writes
    nothing to standard error and exits with code 1; when the pattern
    does not compile it prints [Invalid regex: ...] to standard error,
    writes nothing to standard output and exits with code 1. *)
Theorem aggregator_usage_and_regex_errors (argv : list string) :
  (List.length argv < 3 ->
   Aggregate.main pattern re_compile re_match files argv =
   Process [Print usage] [] (Exit 1)) /\
  (forall e,
      3 <= List.length argv ->
      re_compile (nth 1 argv "") = inr e ->
      Aggregate.main pattern re_compile re_match files argv =
      Process [] [("Invalid regex: " ++ e)%string] (Exit 1)).
Proof.
  unfold Aggregate.main. split.
  - intros Hlen. apply Nat.ltb_lt in Hlen. rewrite Hlen. reflexivity.
  - intros e Hlen He.
    assert (Hge : (List.length argv <? 3) = false) by (apply Nat.ltb_ge; lia).
    rewrite Hge, He. reflexivity.
Qed.

(** C5: when the filtered rows form zero entry groups,
    [calculate_aggregate_stats] returns [(0.0, 0.0, 0.0)] without a
    division error and the data record the aggregator writes is
    [0.000000,0.000000,0.000000]. *)
Theorem zero_groups_give_zero_accuracies (argv : list string)
  (model_filter : pattern) (all_rows : list row) (entries : dict (list row)) :
  3 <= List.length argv ->
  re_compile (nth 1 argv "") = inl model_filter ->
  read_all pattern re_match files model_filter (skipn 2 argv) [] = Ok all_rows ->
  group_rows [] all_rows = Ok entries ->
  List.length entries = 0 ->
  calculate_aggregate_stats all_rows = Ok (0, 0, 0)%Q /\
  Aggregate.main pattern re_compile re_match files argv =
  Process [WriteCells header;
           WriteCells ["0.000000"; "0.000000"; "0.000000"]]
          [("Total entries: " ++ str (List.length all_rows))%string] (Exit 0).
Proof.
  intros Hlen Hre Hread Hgroup Hzero.
  assert (Hstats : calculate_aggregate_stats all_rows = Ok (0, 0, 0)%Q).
  { unfold calculate_aggregate_stats. rewrite Hgroup. simpl.
    rewrite Hzero. reflexivity. }
  split; [exact Hstats |].
  unfold Aggregate.main.
  assert (Hge : (List.length argv <? 3) = false) by (apply Nat.ltb_ge; lia).
  rewrite Hge, Hre, Hread, Hstats. reflexivity.
Qed.

End AggregateClaims.

Section AggregateStats.

Import Aggregate.

(** C9: the triple returned by [calculate_aggregate_stats] does not
    depend on the order of the rows. *)
Theorem calculate_aggregate_stats_order_independent (rows rows' : list row) :
  Forall aggregator_row rows ->
  Permutation rows rows' ->
  calculate_aggregate_stats rows = calculate_aggregate_stats rows'.
Proof.
  intros Hwf Hperm.
  assert (Hwf' : Forall aggregator_row rows').
  { apply Forall_forall. intros r Hr. rewrite Forall_forall in Hwf.
    apply Hwf. apply Permutation_in with rows'; [symmetry |]; assumption. }
  rewrite (calculate_aggregate_stats_spec rows Hwf).
  rewrite (calculate_aggregate_stats_spec rows' Hwf').
  rewrite !(accuracy_of_Permutation _ rows rows' Hperm). reflexivity.
Qed.

End AggregateStats.

(** ** The aggregator on concrete inputs *)

Section AggregateRuns.

Import Aggregate Fixtures.

(** Scenario A of the specification. *)
Example scenario_a :
  aggregate ["ckpoint_aggregate_accuracy.py"; "gpt"; "results.csv"] =
  Process [WriteCells header;
           WriteCells ["50.000000"; "0.000000"; "50.000000"]]
          ["Total entries: 2"] (Exit 0).
Proof. reflexivity. Qed.

(** C3 as the specification words it fails: the usage message is not
    written to standard error. *)
Lemma usage_is_not_on_stderr :
  let p := aggregate ["ckpoint_aggregate_accuracy.py"; "gpt"] in
  ~ In usage (stderr p) /\ stdout p = [Print usage] /\ status p = Exit 1.
Proof.
  split; [intros [] | split; reflexivity].
Qed.

Lemma aggregator_usage_and_regex_errors_witness :
  (List.length ["ckpoint_aggregate_accuracy.py"; "gpt"] < 3 /\
   aggregate ["ckpoint_aggregate_accuracy.py"; "gpt"] =
   Process [Print usage] [] (Exit 1)) /\
  (3 <= List.length ["ckpoint_aggregate_accuracy.py"; "("; "results.csv"] /\
   literal_compile "(" =
     inr "missing ), unterminated subpattern at position 0" /\
   aggregate ["ckpoint_aggregate_accuracy.py"; "("; "results.csv"] =
   Process []
     ["Invalid regex: missing ), unterminated subpattern at position 0"]
     (Exit 1)).
Proof.
  split.
  - split; [simpl; lia |].
    apply (proj1 (aggregator_usage_and_regex_errors string literal_compile
                    literal_match results_csv _)).
    simpl; lia.
  - split; [simpl; lia |]. split; [reflexivity |].
    apply (proj2 (aggregator_usage_and_regex_errors string literal_compile
                    literal_match results_csv _)
                 "missing ), unterminated subpattern at position 0").
    + simpl; lia.
    + reflexivity.
Defined.

Lemma zero_groups_give_zero_accuracies_witness :
  calculate_aggregate_stats [] = Ok (0, 0, 0)%Q /\
  aggregate ["ckpoint_aggregate_accuracy.py"; "llama"; "results.csv"] =
  Process [WriteCells header;
           WriteCells ["0.000000"; "0.000000"; "0.000000"]]
          ["Total entries: 0"] (Exit 0).
Proof.
  apply (zero_groups_give_zero_accuracies string literal_compile
           literal_match results_csv
           ["ckpoint_aggregate_accuracy.py"; "llama"; "results.csv"]
           "llama" [] []).
  - simpl; lia.
  - reflexivity.
  - reflexivity.
  - reflexivity.
  - reflexivity.
Defined.

Lemma calculate_aggregate_stats_order_independent_witness :
  calculate_aggregate_stats [gpt4_entry1; gpt4_entry2] =
  calculate_aggregate_stats [gpt4_entry2; gpt4_entry1].
Proof.
  apply (calculate_aggregate_stats_order_independent
           [gpt4_entry1; gpt4_entry2] [gpt4_entry2; gpt4_entry1]).
  - repeat constructor; eexists; reflexivity.
  - apply perm_swap.
Defined.

End AggregateRuns.

(** ** The differ, entry by entry *)

Section EntryFacts.

Import Diff.

Variable fields : list string.

Lemma all_fields_equal_true (first_row r : row) (fs : list string) :
  all_fields_equal first_row r fs = Ok true ->
  forall f, In f fs -> getitem r f = getitem first_row f.
Proof.
  induction fs as [| f0 fs IH]; simpl; intros H f Hin; [contradiction |].
  destruct (getitem first_row f0) as [a | e] eqn:Ea; simpl in H;
    [| discriminate].
  destruct (getitem r f0) as [b | e] eqn:Eb; simpl in H; [| discriminate].
  destruct (String.eqb_spec a b) as [-> | _]; [| discriminate].
  destruct Hin as [<- | Hin]; [congruence | exact (IH H f Hin)].
Qed.

Lemma rows_agree_true (first_row : row) (tail : list row) :
  rows_agree first_row tail fields = Ok true ->
  forall r f, In r tail -> In f fields -> getitem r f = getitem first_row f.
Proof.
  induction tail as [| r0 tail IH]; simpl; intros H r f Hr Hf;
    [contradiction |].
  destruct (all_fields_equal first_row r0 fields) as [[|] | e] eqn:E;
    simpl in H; try discriminate.
  destruct Hr as [<- | Hr].
  - exact (all_fields_equal_true _ _ _ E f Hf).
  - exact (IH H r f Hr Hf).
Qed.

Lemma group_consistent_true (group : list row) :
  group_consistent group fields = Ok true ->
  group <> [] /\ ~ inconsistent fields group.
Proof.
  destruct group as [| first_row tail]; simpl; intros H; [discriminate |].
  split; [discriminate |].
  intros (first_row' & tail' & r & f & Heq & Hr & Hf & Hne).
  injection Heq as <- <-.
  exact (Hne (rows_agree_true _ _ H r f Hr Hf)).
Qed.

Lemma all_equal_true (group1 group2 : list row) :
  all_equal group1 group2 fields = Ok true ->
  (group1 <> [] /\ ~ inconsistent fields group1) /\
  (group2 <> [] /\ ~ inconsistent fields group2).
Proof.
  unfold all_equal. intros H.
  destruct (group_consistent group1 fields) as [[|] | e] eqn:E1;
    simpl in H; try discriminate.
  split; apply group_consistent_true; assumption.
Qed.

Lemma any_field_not_false (r : row) (expected : string) (fs : list string) :
  any_field_not r expected fs = Ok false <-> fields_are expected fs r.
Proof.
  unfold fields_are. induction fs as [| f0 fs IH]; simpl.
  - split; [intros _ f [] | reflexivity].
  - destruct (getitem r f0) as [v | e] eqn:Ev; simpl.
    + destruct (String.eqb_spec v expected) as [-> | Hne]; simpl.
      * rewrite IH. split.
        -- intros H f [<- | Hf]; [exact Ev | exact (H f Hf)].
        -- intros H f Hf. apply H. right. exact Hf.
      * split; [discriminate |]. intros H.
        specialize (H f0 (or_introl eq_refl)). congruence.
    + split; [discriminate |]. intros H.
      specialize (H f0 (or_introl eq_refl)). congruence.
Qed.

Lemma any_field_not_total (r : row) (expected : string) (fs : list string) :
  Forall (fun f => has_column f r) fs ->
  exists b, any_field_not r expected fs = Ok b.
Proof.
  induction 1 as [| f0 fs [v Hv] _ IH]; simpl; [eauto |].
  rewrite Hv. simpl. destruct (negb (String.eqb v expected)); eauto.
Qed.

Lemma row2_after_cons (r : row) (group2 : list row) (row2_var : option row) :
  row2_after group2 (Some r) = row2_after (r :: group2) row2_var.
Proof.
  destruct group2; reflexivity.
Qed.

Lemma compare_pairs_both (group1 : list row) :
  forall group2 row2_var d1 d2 row2,
    List.length group1 = List.length group2 ->
    compare_pairs (combine group1 group2) fields row2_var = Ok (d1, d2, row2) ->
    d1 && d2 = true ->
    Forall (fields_are "false" fields) group1 /\
    Forall (fields_are "true" fields) group2 /\
    row2 = row2_after group2 row2_var.
Proof.
  induction group1 as [| r1 group1 IH];
    intros [| r2 group2] row2_var d1 d2 row2 Hlen H Hd;
    simpl in Hlen; try discriminate.
  - simpl in H. injection H as <- <- <-. repeat split; constructor.
  - simpl in H.
    destruct (any_field_not r1 "false" fields) as [[|] | e] eqn:E1;
      simpl in H; try discriminate.
    { injection H as <- <- <-. discriminate. }
    destruct (any_field_not r2 "true" fields) as [[|] | e] eqn:E2;
      simpl in H; try discriminate.
    { injection H as <- <- <-. discriminate. }
    injection Hlen as Hlen.
    destruct (IH group2 (Some r2) d1 d2 row2 Hlen H Hd) as (H1 & H2 & H3).
    apply any_field_not_false in E1, E2.
    repeat split; try (constructor; assumption).
    rewrite H3. exact (row2_after_cons r2 group2 row2_var).
Qed.

Lemma compare_pairs_complete (group1 : list row) :
  forall group2 row2_var,
    List.length group1 = List.length group2 ->
    Forall (fields_are "false" fields) group1 ->
    Forall (fields_are "true" fields) group2 ->
    compare_pairs (combine group1 group2) fields row2_var =
    Ok (true, true, row2_after group2 row2_var).
Proof.
  induction group1 as [| r1 group1 IH];
    intros [| r2 group2] row2_var Hlen H1 H2; simpl in Hlen; try discriminate.
  - reflexivity.
  - inversion H1 as [| ? ? Hr1 Hg1]; inversion H2 as [| ? ? Hr2 Hg2]; subst.
    apply any_field_not_false in Hr1, Hr2. simpl.
    rewrite Hr1. simpl. rewrite Hr2. simpl.
    injection Hlen as Hlen.
    rewrite (IH group2 (Some r2) Hlen Hg1 Hg2). f_equal. f_equal.
    exact (row2_after_cons r2 group2 row2_var).
Qed.

Lemma compare_pairs_total (pairs : list (row * row)) :
  forall row2_var,
    Forall (fun p => Forall (fun f => has_column f (fst p)) fields /\
                     Forall (fun f => has_column f (snd p)) fields) pairs ->
    exists res, compare_pairs pairs fields row2_var = Ok res.
Proof.
  induction pairs as [| [r1 r2] pairs IH]; intros row2_var Hwf; simpl;
    [eauto |].
  inversion Hwf as [| ? ? [Hr1 Hr2] Hrest]; subst. simpl in Hr1, Hr2.
  destruct (any_field_not_total r1 "false" fields Hr1) as [b1 ->]. simpl.
  destruct b1; [eauto |].
  destruct (any_field_not_total r2 "true" fields Hr2) as [b2 ->]. simpl.
  destruct b2; [eauto |]. apply IH, Hrest.
Qed.

(** A row is appended for an entry only in the one way the loop body
    allows. *)
Lemma entry_verdict_Some (group1 group2 : list row) (r : row) :
  entry_verdict group1 group2 fields = Ok (Some r) ->
  List.length group1 = List.length group2 /\
  all_equal group1 group2 fields = Ok true /\
  Forall (fields_are "false" fields) group1 /\
  Forall (fields_are "true" fields) group2 /\
  r = last group2 [].
Proof.
  unfold entry_verdict. intros H.
  destruct (Nat.eqb_spec (List.length group1) (List.length group2))
    as [Hlen | _]; simpl in H; [| discriminate].
  destruct (all_equal group1 group2 fields) as [[|] | e] eqn:Heq;
    simpl in H; try discriminate.
  destruct (compare_pairs (combine group1 group2) fields None)
    as [[[d1 d2] row2] | e] eqn:Hcmp; simpl in H; [| discriminate].
  destruct (d1 && d2) eqn:Hd; [| discriminate].
  destruct (compare_pairs_both _ _ _ _ _ _ Hlen Hcmp Hd) as (H1 & H2 & H3).
  destruct (all_equal_true _ _ Heq) as (_ & Hne & _).
  subst row2. destruct group2 as [| r2 group2]; [congruence |].
  simpl in H. injection H as <-. repeat split; assumption.
Qed.

Lemma entry_verdict_differs (group1 group2 : list row) :
  List.length group1 = List.length group2 ->
  all_equal group1 group2 fields = Ok true ->
  Forall (fields_are "false" fields) group1 ->
  Forall (fields_are "true" fields) group2 ->
  entry_verdict group1 group2 fields = Ok (Some (last group2 [])).
Proof.
  intros Hlen Heq H1 H2. unfold entry_verdict.
  apply Nat.eqb_eq in Hlen as Hlenb. rewrite Hlenb, Heq. simpl.
  rewrite (compare_pairs_complete _ _ None Hlen H1 H2). simpl.
  destruct (all_equal_true _ _ Heq) as (_ & Hne & _).
  destruct group2; [congruence | reflexivity].
Qed.

Lemma entry_verdict_unequal (group1 group2 : list row) :
  List.length group1 <> List.length group2 ->
  entry_verdict group1 group2 fields = Ok None.
Proof.
  intros Hlen. unfold entry_verdict.
  apply Nat.eqb_neq in Hlen. rewrite Hlen. reflexivity.
Qed.

End EntryFacts.

Section EntryTotality.

Import Diff.

Variable fields : list string.

Lemma all_fields_equal_total (first_row r : row) (fs : list string) :
  Forall (fun f => has_column f first_row) fs ->
  Forall (fun f => has_column f r) fs ->
  exists b, all_fields_equal first_row r fs = Ok b.
Proof.
  induction fs as [| f0 fs IH]; simpl; intros H1 H2; [eauto |].
  inversion H1 as [| ? ? [a Ha] H1']; inversion H2 as [| ? ? [b Hb] H2'];
    subst.
  rewrite Ha, Hb. simpl. destruct (String.eqb a b); eauto.
Qed.

Lemma rows_agree_total (first_row : row) (tail : list row) :
  Forall (fun f => has_column f first_row) fields ->
  Forall (differ_row fields) tail ->
  exists b, rows_agree first_row tail fields = Ok b.
Proof.
  intros Hfirst. induction 1 as [| r tail [_ Hr] _ IH]; simpl; [eauto |].
  destruct (all_fields_equal_total first_row r fields Hfirst Hr) as [b ->].
  simpl. destruct b; eauto.
Qed.

Lemma group_consistent_total (group : list row) :
  group <> [] ->
  Forall (differ_row fields) group ->
  exists b, group_consistent group fields = Ok b.
Proof.
  intros Hne Hwf. destruct group as [| first_row tail]; [congruence |].
  inversion Hwf as [| ? ? [_ Hfirst] Htail]; subst. simpl.
  apply rows_agree_total; assumption.
Qed.

Lemma combine_columns (group1 : list row) :
  forall group2,
    Forall (differ_row fields) group1 ->
    Forall (differ_row fields) group2 ->
    Forall (fun p => Forall (fun f => has_column f (fst p)) fields /\
                     Forall (fun f => has_column f (snd p)) fields)
           (combine group1 group2).
Proof.
  induction group1 as [| r1 group1 IH]; intros [| r2 group2] H1 H2; simpl;
    try constructor.
  - inversion H1 as [| ? ? [_ Hr1] _]; inversion H2 as [| ? ? [_ Hr2] _];
      subst. split; assumption.
  - inversion H1; inversion H2; subst. apply IH; assumption.
Qed.

(** On rows that carry the requested fields the loop body raises
    nothing, provided the entry occurs in one of the files. *)
Lemma entry_verdict_total (group1 group2 : list row) :
  Forall (differ_row fields) group1 ->
  Forall (differ_row fields) group2 ->
  group1 <> [] \/ group2 <> [] ->
  exists v, entry_verdict group1 group2 fields = Ok v.
Proof.
  intros H1 H2 Hne. unfold entry_verdict.
  destruct (Nat.eqb_spec (List.length group1) (List.length group2))
    as [Hlen | _]; simpl; [| eauto].
  assert (Hne1 : group1 <> [])
    by (destruct group1, group2; simpl in Hlen; try discriminate;
        destruct Hne; congruence).
  assert (Hne2 : group2 <> [])
    by (destruct group1, group2; simpl in Hlen; try discriminate;
        destruct Hne; congruence).
  unfold all_equal.
  destruct (group_consistent_total group1 Hne1 H1) as [b1 ->]. simpl.
  destruct b1; simpl; [| eauto].
  destruct (group_consistent_total group2 Hne2 H2) as [b2 ->]. simpl.
  destruct b2; simpl; [| eauto].
  destruct (compare_pairs_total fields _ None (combine_columns _ _ H1 H2))
    as [[[d1 d2] row2] Hcmp].
  rewrite Hcmp. simpl. destruct (d1 && d2) eqn:Hd; [| eauto].
  destruct (compare_pairs_both fields _ _ _ _ _ _ Hlen Hcmp Hd)
    as (_ & _ & ->).
  destruct group2; [congruence | simpl; eauto].
Qed.

End EntryTotality.

(** ** The differ over all entries *)

Section FindDifferingRowsFacts.

Import Diff.

Variable order : set_iteration.
Variable fields : list string.

Lemma last_In {A : Type} (l : list A) (d : A) : l <> [] -> In (last l d) l.
Proof.
  induction l as [| x l IH]; intros Hne; [congruence |].
  destruct l as [| y l]; [left; reflexivity |].
  right. apply IH. discriminate.
Qed.

Lemma in_entry_index (idx : string) (r : row) :
  in_entry idx r = true <-> entry_index_of r = idx.
Proof.
  unfold in_entry. apply String.eqb_eq.
Qed.

Lemma entry_index_getitem (r : row) :
  has_column "entry_index" r ->
  getitem r "entry_index" = Ok (entry_index_of r).
Proof.
  intros [v Hv]. rewrite Hv. f_equal. symmetry.
  unfold entry_index_of. apply getitem_get, Hv.
Qed.

Lemma compare_entries_In (grouped_rows1 grouped_rows2 : dict (list row))
  (indices : list string) :
  forall differing_rows out,
    compare_entries grouped_rows1 grouped_rows2 fields indices differing_rows
    = Ok out ->
    forall r,
      In r out <->
      In r differing_rows \/
      exists idx,
        In idx indices /\
        entry_verdict (get grouped_rows1 idx []) (get grouped_rows2 idx [])
                      fields = Ok (Some r).
Proof.
  induction indices as [| idx0 indices IH]; simpl; intros acc out H r.
  - injection H as <-. split; [auto |].
    intros [H | (idx & [] & _)]; exact H.
  - destruct (entry_verdict (get grouped_rows1 idx0 [])
                (get grouped_rows2 idx0 []) fields) as [v | e] eqn:Hv;
      simpl in H; [| discriminate].
    rewrite (IH _ _ H r). destruct v as [row2 |].
    + rewrite in_app_iff. simpl. split.
      * intros [[Hin | [<- | []]] | (idx & Hin & Hidx)]; eauto.
      * intros [Hin | (idx & [<- | Hin] & Hidx)]; eauto.
        rewrite Hv in Hidx. injection Hidx as ->. auto.
    + split.
      * intros [Hin | (idx & Hin & Hidx)]; eauto.
      * intros [Hin | (idx & [<- | Hin] & Hidx)]; eauto. congruence.
Qed.

Lemma compare_entries_total (grouped_rows1 grouped_rows2 : dict (list row))
  (indices : list string) :
  (forall idx, In idx indices ->
     exists v, entry_verdict (get grouped_rows1 idx [])
                 (get grouped_rows2 idx []) fields = Ok v) ->
  forall differing_rows,
  exists out,
    compare_entries grouped_rows1 grouped_rows2 fields indices differing_rows
    = Ok out.
Proof.
  induction indices as [| idx0 indices IH]; simpl; intros Hall acc; [eauto |].
  destruct (Hall idx0 (or_introl eq_refl)) as [v ->]. simpl.
  apply IH. intros idx Hin. apply Hall. right. exact Hin.
Qed.

Lemma in_iteration (l : list string) (x : string) :
  In x (order (set_of l)) <-> In x l.
Proof.
  unfold set_of. rewrite <- (nodup_In string_dec l x). split.
  - apply Permutation_in. symmetry. apply iter_perm.
  - apply Permutation_in, iter_perm.
Qed.

Lemma entry_rows_index (idx : string) (rows : list row) (r : row) :
  In r (entry_rows idx rows) -> In r rows /\ entry_index_of r = idx.
Proof.
  unfold entry_rows. intros H. apply filter_In in H.
  destruct H as [Hin Hidx]. split; [exact Hin |].
  apply in_entry_index, Hidx.
Qed.

(** The rows [find_differing_rows] returns are those the loop body
    appends, entry by entry. *)
Lemma find_differing_rows_In (rows1 rows2 out : list row) :
  find_differing_rows order rows1 rows2 fields = Ok out ->
  forall r,
    In r out <->
    exists idx,
      entry_verdict (entry_rows idx rows1) (entry_rows idx rows2) fields
      = Ok (Some r).
Proof.
  unfold find_differing_rows. intros H r.
  destruct (group_rows [] rows1) as [d1 | e] eqn:Hd1; simpl in H;
    [| discriminate].
  destruct (group_rows [] rows2) as [d2 | e] eqn:Hd2; simpl in H;
    [| discriminate].
  destruct (group_rows_spec rows1 [] (group_rows_Ok _ _ _ Hd1))
    as (d1' & Hd1' & Hget1 & Hkeys1 & _).
  destruct (group_rows_spec rows2 [] (group_rows_Ok _ _ _ Hd2))
    as (d2' & Hd2' & Hget2 & Hkeys2 & _).
  assert (d1' = d1) by congruence. assert (d2' = d2) by congruence.
  subst d1' d2'.
  rewrite (compare_entries_In _ _ _ _ _ H r). simpl. split.
  - intros [[] | (idx & _ & Hv)]. exists idx.
    rewrite Hget1, Hget2 in Hv. exact Hv.
  - intros (idx & Hv). right. exists idx. split.
    + apply in_iteration, in_or_app. right. apply Hkeys2. right.
      destruct (entry_verdict_Some _ _ _ _ Hv) as (_ & Heq & _).
      destruct (all_equal_true _ _ _ Heq) as (_ & Hne & _).
      destruct (entry_rows idx rows2) as [| r2 g2] eqn:Hg; [congruence |].
      assert (Hin : In r2 (entry_rows idx rows2))
        by (rewrite Hg; left; reflexivity).
      apply entry_rows_index in Hin. destruct Hin as [Hin <-].
      apply in_map, Hin.
    + rewrite Hget1, Hget2. exact Hv.
Qed.

(** An entry is reported exactly when the loop body appends a row for
    it. *)
Lemma reported_iff (rows1 rows2 out : list row) (idx : string) :
  find_differing_rows order rows1 rows2 fields = Ok out ->
  reported idx out <->
  exists r,
    entry_verdict (entry_rows idx rows1) (entry_rows idx rows2) fields
    = Ok (Some r).
Proof.
  intros H.
  assert (Hwf2 : Forall (has_column "entry_index") rows2).
  { unfold find_differing_rows in H.
    destruct (group_rows [] rows1) as [d1 | e]; simpl in H; [| discriminate].
    destruct (group_rows [] rows2) as [d2 | e] eqn:Hd2; simpl in H;
      [| discriminate].
    exact (group_rows_Ok _ _ _ Hd2). }
  assert (Hrow : forall idx' r,
             entry_verdict (entry_rows idx' rows1) (entry_rows idx' rows2)
               fields = Ok (Some r) ->
             getitem r "entry_index" = Ok idx').
  { intros idx' r Hv.
    destruct (entry_verdict_Some _ _ _ _ Hv) as (_ & Heq & _ & _ & ->).
    destruct (all_equal_true _ _ _ Heq) as (_ & Hne & _).
    destruct (entry_rows_index idx' rows2 _ (last_In _ [] Hne))
      as [Hin Hidx].
    rewrite Forall_forall in Hwf2.
    etransitivity; [exact (entry_index_getitem _ (Hwf2 _ Hin)) |].
    f_equal. exact Hidx. }
  unfold reported. split.
  - intros (r & Hin & Hidx).
    apply (find_differing_rows_In _ _ _ H) in Hin.
    destruct Hin as (idx' & Hv).
    assert (idx' = idx) by (apply Hrow in Hv as Hidx'; congruence).
    subst idx'. eauto.
  - intros (r & Hv). exists r. split.
    + apply (find_differing_rows_In _ _ _ H). eauto.
    + apply Hrow, Hv.
Qed.

(** On rows that carry [entry_index] and every requested field,
    [find_differing_rows] raises nothing. *)
Lemma find_differing_rows_total (rows1 rows2 : list row) :
  Forall (differ_row fields) rows1 ->
  Forall (differ_row fields) rows2 ->
  exists out, find_differing_rows order rows1 rows2 fields = Ok out.
Proof.
  intros H1 H2. unfold find_differing_rows.
  assert (Hi1 : Forall (has_column "entry_index") rows1)
    by (eapply Forall_impl; [| exact H1]; intros r H; apply H).
  assert (Hi2 : Forall (has_column "entry_index") rows2)
    by (eapply Forall_impl; [| exact H2]; intros r H; apply H).
  destruct (group_rows_spec rows1 [] Hi1) as (d1 & -> & Hget1 & Hkeys1 & _).
  destruct (group_rows_spec rows2 [] Hi2) as (d2 & -> & Hget2 & Hkeys2 & _).
  simpl. apply compare_entries_total. intros idx Hin.
  rewrite Hget1, Hget2. simpl.
  apply entry_verdict_total.
  - apply Forall_forall. intros r Hr. apply filter_In in Hr.
    rewrite Forall_forall in H1. apply H1, Hr.
  - apply Forall_forall. intros r Hr. apply filter_In in Hr.
    rewrite Forall_forall in H2. apply H2, Hr.
  - apply in_iteration, in_app_or in Hin.
    assert (Hgroup : forall rows, In idx (map entry_index_of rows) ->
                                  filter (in_entry idx) rows <> []).
    { intros rows Hidx. apply in_map_iff in Hidx.
      destruct Hidx as (r & Hr & Hrin). intros Hnil.
      assert (Hf : In r (filter (in_entry idx) rows))
        by (apply filter_In; split; [exact Hrin | apply in_entry_index, Hr]).
      rewrite Hnil in Hf. exact Hf. }
    destruct Hin as [Hin | Hin].
    + left. apply Hgroup. apply Hkeys1 in Hin. destruct Hin as [[] | Hin].
      exact Hin.
    + right. apply Hgroup. apply Hkeys2 in Hin. destruct Hin as [[] | Hin].
      exact Hin.
Qed.

End FindDifferingRowsFacts.

(** ** What the specification says of [find_differing_rows] *)

Section FindDifferingRowsClaims.

Import Diff.

Variable order : set_iteration.
Variable fields : list string.
Variables rows1 rows2 : list row.
Variable idx : string.

(** C6: an entry whose row groups in the two files have different
    lengths, an absent group being empty, is passed over and never
    reported. *)
Theorem unequal_groups_never_reported :
  List.length (entry_rows idx rows1) <> List.length (entry_rows idx rows2) ->
  entry_verdict (entry_rows idx rows1) (entry_rows idx rows2) fields = Ok None /\
  forall out,
    find_differing_rows order rows1 rows2 fields = Ok out ->
    ~ reported idx out.
Proof.
  intros Hlen. split; [apply entry_verdict_unequal, Hlen |].
  intros out Hout Hrep.
  apply (reported_iff _ _ _ _ _ _ Hout) in Hrep. destruct Hrep as [r Hv].
  apply entry_verdict_Some in Hv. destruct Hv as [Heq _]. exact (Hlen Heq).
Qed.

(** C7: an entry with groups of equal length in which some row of
    either group disagrees with the first row of its group on a
    requested field is not reported. *)
Theorem inconsistent_groups_never_reported :
  List.length (entry_rows idx rows1) = List.length (entry_rows idx rows2) ->
  inconsistent fields (entry_rows idx rows1) \/
  inconsistent fields (entry_rows idx rows2) ->
  (forall r,
      entry_verdict (entry_rows idx rows1) (entry_rows idx rows2) fields
      <> Ok (Some r)) /\
  (Forall (differ_row fields) rows1 ->
   Forall (differ_row fields) rows2 ->
   entry_verdict (entry_rows idx rows1) (entry_rows idx rows2) fields
   = Ok None) /\
  forall out,
    find_differing_rows order rows1 rows2 fields = Ok out ->
    ~ reported idx out.
Proof.
  intros _ Hinc.
  assert (Hskip : forall r,
             entry_verdict (entry_rows idx rows1) (entry_rows idx rows2) fields
             <> Ok (Some r)).
  { intros r Hv. apply entry_verdict_Some in Hv.
    destruct Hv as (_ & Heq & _).
    destruct (all_equal_true _ _ _ Heq) as [[_ Hc1] [_ Hc2]].
    destruct Hinc; contradiction. }
  split; [exact Hskip |]. split.
  - intros Hwf1 Hwf2.
    assert (Hgroup : forall rows,
               Forall (differ_row fields) rows ->
               Forall (differ_row fields) (entry_rows idx rows)).
    { intros rows Hwf. apply Forall_forall. intros r Hr.
      apply filter_In in Hr. rewrite Forall_forall in Hwf. apply Hwf, Hr. }
    destruct (entry_verdict_total fields _ _ (Hgroup _ Hwf1) (Hgroup _ Hwf2))
      as [[r |] Hv].
    + destruct Hinc as [(f & t & _ & _ & -> & _) | (f & t & _ & _ & -> & _)];
        [left | right]; discriminate.
    + destruct (Hskip r Hv).
    + exact Hv.
  - intros out Hout Hrep.
    apply (reported_iff _ _ _ _ _ _ Hout) in Hrep. destruct Hrep as [r Hv].
    exact (Hskip r Hv).
Qed.

(** C2: for an entry whose groups have equal length and pass the
    consistency check, the last row of the second file's group is
    recorded exactly when every requested field is ["false"] in every
    row of the first group and ["true"] in every row of the second;
    so a reported entry has ["false"] and ["true"] in the first
    requested field of its first pair of rows. *)
Theorem differing_row_recorded_iff (out : list row) :
  find_differing_rows order rows1 rows2 fields = Ok out ->
  List.length (entry_rows idx rows1) = List.length (entry_rows idx rows2) ->
  all_equal (entry_rows idx rows1) (entry_rows idx rows2) fields = Ok true ->
  (In (last (entry_rows idx rows2) []) out <->
   Forall (fields_are "false" fields) (entry_rows idx rows1) /\
   Forall (fields_are "true" fields) (entry_rows idx rows2)) /\
  (reported idx out <-> In (last (entry_rows idx rows2) []) out) /\
  (reported idx out ->
   forall field rest,
     fields = field :: rest ->
     getitem (hd [] (entry_rows idx rows1)) field = Ok "false" /\
     getitem (hd [] (entry_rows idx rows2)) field = Ok "true").
Proof.
  intros Hout Hlen Heq.
  destruct (all_equal_true _ _ _ Heq) as [[Hne1 _] [Hne2 _]].
  assert (Hrep : reported idx out <->
                 Forall (fields_are "false" fields) (entry_rows idx rows1) /\
                 Forall (fields_are "true" fields) (entry_rows idx rows2)).
  { rewrite (reported_iff _ _ _ _ _ _ Hout). split.
    - intros [r Hv]. apply entry_verdict_Some in Hv.
      destruct Hv as (_ & _ & H1 & H2 & _). split; assumption.
    - intros [H1 H2]. eexists.
      apply entry_verdict_differs; assumption. }
  assert (Hlast : reported idx out <-> In (last (entry_rows idx rows2) []) out).
  { split.
    - intros H. apply Hrep in H. destruct H as [H1 H2].
      apply (find_differing_rows_In _ _ _ _ _ Hout). exists idx.
      apply entry_verdict_differs; assumption.
    - intros H. apply (find_differing_rows_In _ _ _ _ _ Hout) in H.
      destruct H as (idx' & Hv).
      assert (Hsame : idx' = idx).
      { destruct (entry_verdict_Some _ _ _ _ Hv) as (_ & Heq' & _ & _ & Hr).
        destruct (all_equal_true _ _ _ Heq') as [_ [Hne' _]].
        destruct (entry_rows_index idx rows2 _ (last_In _ [] Hne2))
          as [_ Hi].
        destruct (entry_rows_index idx' rows2 _ (last_In _ [] Hne'))
          as [_ Hi'].
        transitivity (entry_index_of (last (entry_rows idx rows2) []));
          [| exact Hi].
        symmetry. etransitivity; [exact (f_equal entry_index_of Hr) |].
        exact Hi'. }
      subst idx'. apply (reported_iff _ _ _ _ _ _ Hout). eauto. }
  split; [rewrite <- Hlast; exact Hrep |]. split; [exact Hlast |].
  intros H field rest ->. apply Hrep in H. destruct H as [H1 H2].
  destruct (entry_rows idx rows1) as [| r1 g1]; [congruence |].
  destruct (entry_rows idx rows2) as [| r2 g2]; [congruence |].
  inversion H1 as [| ? ? Hr1 _]; inversion H2 as [| ? ? Hr2 _]; subst.
  simpl. split; [apply Hr1 | apply Hr2]; left; reflexivity.
Qed.

End FindDifferingRowsClaims.

(** ** The output phase of the differ *)

Section ReportFacts.

Import Diff.

Variable test_rows : list row.

Lemma search_reference_spec (commit : string) (rows : list row) :
  Forall (has_column "Description") rows ->
  search_reference commit rows =
  Ok (find (fun test_row => contains commit (get test_row "Description" ""))
           rows).
Proof.
  induction 1 as [| t rows [desc Hdesc] _ IH]; simpl; [reflexivity |].
  rewrite Hdesc. simpl. rewrite (getitem_get _ _ _ "" Hdesc).
  destruct (contains commit desc); [reflexivity | exact IH].
Qed.

Lemma writerow_fits (fieldnames : list string) (r : row) :
  fits fieldnames r = true -> writerow fieldnames r = Ok (WriteDict r).
Proof.
  unfold writerow. intros ->. reflexivity.
Qed.

Lemma write_rows_spec (fieldnames : list string)
  (differing_rows : list row) :
  Forall (has_column "Description") test_rows ->
  Forall (fun t => fits fieldnames t = true) test_rows ->
  Forall (has_column "patch_commit_hash") differing_rows ->
  Forall (fun r => has_reference test_rows r = false ->
                   fits fieldnames r = true) differing_rows ->
  forall written count,
    write_rows fieldnames test_rows differing_rows written count =
    (written ++ map (fun r => WriteDict (row_written_for test_rows r))
                    differing_rows,
     Ok (count + List.length (filter (has_reference test_rows) differing_rows))).
Proof.
  intros Htest Hfit Hdiff. rewrite Forall_forall in Hfit.
  induction Hdiff as [| r rest [commit Hcommit] _ IH];
    intros Hdfit written count; simpl.
  - rewrite app_nil_r, Nat.add_0_r. reflexivity.
  - inversion Hdfit as [| ? ? Hr Hrest]; subst.
    assert (Href : reference_for test_rows r =
                   find (fun test_row =>
                           contains commit (get test_row "Description" ""))
                        test_rows)
      by (unfold reference_for; rewrite (getitem_get _ _ _ "" Hcommit);
          reflexivity).
    rewrite Hcommit. simpl Py.bind.
    rewrite (search_reference_spec _ _ Htest), <- Href.
    assert (Hhas : has_reference test_rows r =
                   match reference_for test_rows r with
                   | Some _ => true
                   | None => false
                   end) by reflexivity.
    assert (Hrow : row_written_for test_rows r =
                   match reference_for test_rows r with
                   | Some test_row => test_row
                   | None => r
                   end) by reflexivity.
    rewrite Hhas, Hrow. rewrite Hhas in Hr.
    destruct (reference_for test_rows r) as [test_row |] eqn:Hfind.
    + unfold reference_for in Hfind. apply find_some in Hfind.
      rewrite (writerow_fits _ _ (Hfit _ (proj1 Hfind))).
      rewrite (IH Hrest), <- app_assoc. simpl. f_equal. f_equal. lia.
    + rewrite (writerow_fits _ _ (Hr eq_refl)).
      rewrite (IH Hrest), <- app_assoc. simpl. f_equal.
Qed.

Lemma write_rows_extends (fieldnames : list string)
  (differing_rows : list row) :
  forall written count,
  exists more,
    fst (write_rows fieldnames test_rows differing_rows written count) =
    written ++ more.
Proof.
  induction differing_rows as [| r rest IH]; intros written count; simpl.
  - exists []. symmetry. apply app_nil_r.
  - destruct (commit <- getitem r "patch_commit_hash" ;;
              search_reference commit test_rows) as [[test_row |] | e].
    + destruct (writerow fieldnames test_row) as [ev | e].
      * destruct (IH (written ++ [ev]) (count + 1)) as [more ->].
        rewrite <- app_assoc. eauto.
      * exists []. symmetry. apply app_nil_r.
    + destruct (writerow fieldnames r) as [ev | e].
      * destruct (IH (written ++ [ev]) count) as [more ->].
        rewrite <- app_assoc. eauto.
      * exists []. symmetry. apply app_nil_r.
    + exists []. symmetry. apply app_nil_r.
Qed.

Lemma rows_written_app (out out' : list out_event) :
  rows_written (out ++ out') = rows_written out + rows_written out'.
Proof.
  induction out as [| ev out IH]; simpl; [reflexivity |].
  destruct ev; simpl; rewrite IH; reflexivity.
Qed.

Lemma rows_written_map (f : row -> row) (rows : list row) :
  rows_written (map (fun r => WriteDict (f r)) rows) = List.length rows.
Proof.
  induction rows as [| r rows IH]; simpl; [reflexivity | rewrite IH].
  reflexivity.
Qed.

(** What [main] does once [differing_rows] is known, on rows that
    carry the columns it reads. *)
Lemma report_spec (differing_rows : list row) (first_row : row)
  (rest : list row) :
  test_rows = first_row :: rest ->
  Forall (has_column "Description") test_rows ->
  Forall (has_column "patch_commit_hash") differing_rows ->
  writer_accepts test_rows differing_rows ->
  differing_rows <> [] ->
  report differing_rows test_rows =
  Process
    (WriteHeader (keys first_row)
       :: map (fun r => WriteDict (row_written_for test_rows r)) differing_rows)
    [str (List.length (filter (has_reference test_rows) differing_rows))]
    (Exit 0).
Proof.
  intros Heq Htest Hdiff [Hfit Hdfit] Hne. unfold report.
  assert (Hhd : keys (hd [] test_rows) = keys first_row)
    by (rewrite Heq; reflexivity).
  unfold columns_fit in Hfit, Hdfit. rewrite Hhd in Hfit, Hdfit.
  destruct differing_rows as [| d ds] eqn:Hd; [congruence |].
  rewrite <- Hd in *. rewrite Heq at 1.
  rewrite (write_rows_spec _ _ Htest Hfit Hdiff Hdfit). reflexivity.
Qed.

End ReportFacts.

Section MainFacts.

Import Diff.

Lemma report_without_reference (differing_rows : list row) :
  differing_rows <> [] ->
  report differing_rows [] = Process [] [] (Uncaught IndexError).
Proof.
  destruct differing_rows; [congruence | reflexivity].
Qed.

Lemma report_header (differing_rows : list row) (first_row : row)
  (rest : list row) :
  differing_rows <> [] ->
  exists rows,
    stdout (report differing_rows (first_row :: rest)) =
    WriteHeader (keys first_row) :: rows.
Proof.
  intros Hne.
  destruct (write_rows_extends (first_row :: rest) (keys first_row)
              differing_rows [WriteHeader (keys first_row)] 0)
    as [more Hmore].
  destruct differing_rows as [| d ds]; [congruence |].
  unfold report.
  destruct (write_rows (keys first_row) (first_row :: rest) (d :: ds)
              [WriteHeader (keys first_row)] 0) as [written [count | e]];
    simpl in Hmore; subst written; exists more; reflexivity.
Qed.

Lemma main_report (order : set_iteration)
  (files : string -> option (list row)) (argv : list string)
  (rows1 rows2 test_rows differing_rows : list row) :
  passes_checks order files argv rows1 rows2 test_rows differing_rows ->
  Diff.main order files argv = report differing_rows test_rows.
Proof.
  intros (Hlen & H1 & H2 & Ht & Hmissing & Hfind). unfold Diff.main.
  assert (Hge : (List.length argv <? 5) = false) by (apply Nat.ltb_ge; lia).
  rewrite Hge. unfold read_csv. cbv zeta. rewrite H1, H2, Ht.
  cbn [Py.bind]. rewrite Hmissing, Hfind. reflexivity.
Qed.

End MainFacts.

(** ** Literal substring search *)

Section SubstringFacts.

Import Diff.






End SubstringFacts.

(** ** What the specification says of the output of the differ *)

Section ReportClaims.

Import Diff.

Variable order : set_iteration.
Variable files : string -> option (list row).
Variable argv : list string.
Variables rows1 rows2 test_rows differing_rows : list row.

(** C1, as the code has it, for rows the writer accepts (their
    columns are columns of the first reference row): the integer
    printed to standard error is the number of differing rows for
    which a reference row was written in their place; a differing row
    written as itself is not counted, though every differing row
    yields one written row.  So when no reference row mentions a
    differing row, the rows are written as they are and the integer
    printed is 0. *)
Theorem count_is_number_of_reference_rows :
  passes_checks order files argv rows1 rows2 test_rows differing_rows ->
  Forall (has_column "patch_commit_hash") differing_rows ->
  Forall (has_column "Description") test_rows ->
  writer_accepts test_rows differing_rows ->
  differing_rows = [] \/ test_rows <> [] ->
  let p := Diff.main order files argv in
  status p = Exit 0 /\
  rows_written (stdout p) = List.length differing_rows /\
  stderr p =
    [str (List.length (filter (has_reference test_rows) differing_rows))] /\
  ((forall r, In r differing_rows -> has_reference test_rows r = false) ->
   stderr p = ["0"]).
Proof.
  intros Hrun Hdiff Htest Hfit Hne p.
  assert (Hp : p = report differing_rows test_rows)
    by (apply main_report with rows1 rows2; exact Hrun).
  assert (Hzero : (forall r, In r differing_rows ->
                             has_reference test_rows r = false) ->
                  filter (has_reference test_rows) differing_rows = []).
  { clear. induction differing_rows as [| r rows IH]; intros H; simpl;
      [reflexivity |].
    rewrite (H r (or_introl eq_refl)). apply IH.
    intros r' Hr'. apply H. right. exact Hr'. }
  destruct differing_rows as [| d ds] eqn:Hd.
  - rewrite Hp. simpl. repeat split; reflexivity.
  - destruct test_rows as [| first_row rest] eqn:Ht;
      [destruct Hne; congruence |].
    rewrite <- Hd, <- Ht in *.
    assert (Hnonempty : differing_rows <> []) by (rewrite Hd; discriminate).
    rewrite Hp, (report_spec _ _ _ _ Ht Htest Hdiff Hfit Hnonempty). simpl.
    repeat split.
    + rewrite rows_written_map. reflexivity.
    + intros H. rewrite (Hzero H). reflexivity.
Qed.


(** C10: once a row differs, the first reference row is read for the
    header; with a reference file without rows the differ ends in an
    uncaught [IndexError], having written nothing. *)
Theorem differing_rows_need_a_reference_row :
  passes_checks order files argv rows1 rows2 test_rows differing_rows ->
  differing_rows <> [] ->
  (test_rows = [] ->
   Diff.main order files argv = Process [] [] (Uncaught IndexError)) /\
  (forall first_row rest,
      test_rows = first_row :: rest ->
      exists rows, stdout (Diff.main order files argv) =
                   WriteHeader (keys first_row) :: rows).
Proof.
  intros Hrun Hne. rewrite (main_report _ _ _ _ _ _ _ Hrun). split.
  - intros ->. apply report_without_reference, Hne.
  - intros first_row rest ->. apply report_header, Hne.
Qed.

End ReportClaims.

(** ** The differ on concrete inputs *)

Section DiffRuns.

Import Diff Fixtures.

(** Scenario B of the specification: one row is written, the row of
    the second file, and the integer printed is 0. *)
Example scenario_b_run :
  Diff.main insertion_order scenario_b scenario_b_argv =
  Process [WriteHeader (keys unrelated_reference); WriteDict file2_row]
          ["0"] (Exit 0).
Proof. reflexivity. Qed.

(** C1 as the specification words it fails in its own scenario B: one
    row is written and standard error does not hold the number of rows
    written. *)
Lemma count_is_not_rows_written :
  let p := Diff.main insertion_order scenario_b scenario_b_argv in
  stdout p = [WriteHeader (keys unrelated_reference); WriteDict file2_row] /\
  rows_written (stdout p) = 1 /\
  stderr p <> [str (rows_written (stdout p))].
Proof.
  split; [reflexivity |]. split; [reflexivity |]. discriminate.
Qed.

Lemma count_is_number_of_reference_rows_witness :
  let p := Diff.main insertion_order with_match scenario_b_argv in
  status p = Exit 0 /\
  rows_written (stdout p) = List.length [file2_row] /\
  stderr p =
    [str (List.length
            (filter (has_reference [unrelated_reference; matching_reference])
                    [file2_row]))] /\
  ((forall r, In r [file2_row] ->
      has_reference [unrelated_reference; matching_reference] r = false) ->
   stderr p = ["0"]).
Proof.
  apply (count_is_number_of_reference_rows insertion_order with_match
           scenario_b_argv [file1_row] [file2_row]
           [unrelated_reference; matching_reference] [file2_row]).
  - unfold passes_checks. repeat split; try reflexivity; simpl; lia.
  - repeat constructor; eexists; reflexivity.
  - repeat constructor; eexists; reflexivity.
  - split; repeat constructor; reflexivity.
  - right. discriminate.
Defined.



Lemma differing_rows_need_a_reference_row_witness :
  Diff.main insertion_order empty_reference scenario_b_argv =
  Process [] [] (Uncaught IndexError).
Proof.
  assert (Hrun : passes_checks insertion_order empty_reference
                   scenario_b_argv [file1_row] [file2_row] [] [file2_row])
    by (unfold passes_checks; repeat split; try reflexivity; simpl; lia).
  assert (Hne : [file2_row] <> []) by discriminate.
  apply (proj1 (differing_rows_need_a_reference_row insertion_order
                  empty_reference scenario_b_argv [file1_row] [file2_row]
                  [] [file2_row] Hrun Hne)).
  reflexivity.
Defined.

Lemma unequal_groups_never_reported_witness :
  List.length (entry_rows "5" [file1_row; file1_row]) <>
  List.length (entry_rows "5" [file2_row]) /\
  find_differing_rows insertion_order [file1_row; file1_row] [file2_row]
    ["field"] = Ok [] /\
  ~ reported "5" [].
Proof.
  assert (Hlen : List.length (entry_rows "5" [file1_row; file1_row]) <>
                 List.length (entry_rows "5" [file2_row]))
    by (simpl; lia).
  split; [exact Hlen |]. split; [reflexivity |].
  apply (proj2 (unequal_groups_never_reported insertion_order ["field"]
                  [file1_row; file1_row] [file2_row] "5" Hlen) []).
  reflexivity.
Defined.

Lemma inconsistent_groups_never_reported_witness :
  find_differing_rows insertion_order [file1_row; file1_row_true]
    [file2_row; file2_row] ["field"] = Ok [] /\
  ~ reported "5" [].
Proof.
  assert (Hlen : List.length (entry_rows "5" [file1_row; file1_row_true]) =
                 List.length (entry_rows "5" [file2_row; file2_row]))
    by reflexivity.
  assert (Hinc : inconsistent ["field"]
                   (entry_rows "5" [file1_row; file1_row_true]) \/
                 inconsistent ["field"]
                   (entry_rows "5" [file2_row; file2_row])).
  { left. exists file1_row, [file1_row_true], file1_row_true, "field".
    repeat split; try (left; reflexivity). discriminate. }
  split; [reflexivity |].
  apply (proj2 (proj2 (inconsistent_groups_never_reported insertion_order
                         ["field"] [file1_row; file1_row_true]
                         [file2_row; file2_row] "5" Hlen Hinc)) []).
  reflexivity.
Defined.

Lemma differing_row_recorded_iff_witness :
  In (last (entry_rows "5" [file2_row]) []) [file2_row] <->
  Forall (fields_are "false" ["field"]) (entry_rows "5" [file1_row]) /\
  Forall (fields_are "true" ["field"]) (entry_rows "5" [file2_row]).
Proof.
  apply (differing_row_recorded_iff insertion_order ["field"] [file1_row]
           [file2_row] "5" [file2_row]); reflexivity.
Defined.

End DiffRuns.

(** * Beyond the specification *)

(** ** Reading and filtering in the aggregator *)

Section ReadCsvProperties.

Import Aggregate Beyond.

Variable pattern : Type.
Variable re_match : pattern -> string -> bool.
Variable files : string -> option (list row).
Variable model_filter : pattern.

Lemma getitem_Raise {V : Type} (d : dict V) (k : string) (e : exn) :
  getitem d k = Raise e -> e = KeyError k.
Proof.
  induction d as [| [k0 v0] rest IH]; simpl.
  - congruence.
  - destruct (String.eqb k0 k); [discriminate | exact IH].
Qed.

Lemma getitem_missing (r : row) (c : string) :
  ~ has_column c r -> getitem r c = Raise (KeyError c).
Proof.
  intros Hno. destruct (getitem r c) as [v | e] eqn:E.
  - destruct Hno. exists v. exact E.
  - rewrite (getitem_Raise _ _ _ E). reflexivity.
Qed.

Lemma filter_model_filter (reader : list row) :
  Forall (has_column "model") reader ->
  filter_model pattern re_match model_filter reader =
  Ok (filter (kept re_match model_filter) reader).
Proof.
  induction 1 as [| r reader [model Hmodel] _ IH]; [reflexivity |].
  assert (Hk : kept re_match model_filter r = re_match model_filter model)
    by (unfold kept; rewrite (getitem_get _ _ _ "" Hmodel); reflexivity).
  cbn [filter_model filter]. rewrite Hmodel, IH, Hk. reflexivity.
Qed.

Lemma filter_model_missing (reader : list row) :
  Exists (fun r => ~ has_column "model" r) reader ->
  filter_model pattern re_match model_filter reader =
  Raise (KeyError "model").
Proof.
  induction reader as [| r reader IH]; intros Hex; [inversion Hex |].
  simpl. destruct (getitem r "model") as [model | e] eqn:E; simpl.
  - rewrite IH; [reflexivity |].
    inversion Hex as [? ? Hr | ? ? Hrest]; subst; [| exact Hrest].
    destruct Hr. exists model. exact E.
  - rewrite (getitem_Raise _ _ _ E). reflexivity.
Qed.

(** [read_csv] returns the rows of the file whose [model] the pattern
    matches, in the order of the file. *)
Theorem read_csv_keeps_matching_rows (filename : string)
  (reader : list row) :
  files filename = Some reader ->
  Forall (has_column "model") reader ->
  read_csv pattern re_match files filename model_filter =
  Ok (filter (kept re_match model_filter) reader).
Proof.
  intros Hfile Hwf. unfold read_csv. rewrite Hfile.
  apply filter_model_filter, Hwf.
Qed.

(** A file whose header has no [model] column, so that none of its
    rows has one, makes [read_csv] raise [KeyError('model')] as soon
    as it has a record, whatever the pattern matches. *)
Theorem read_csv_missing_model (filename : string) (reader : list row) :
  files filename = Some reader ->
  reader <> [] ->
  Forall (fun r => ~ has_column "model" r) reader ->
  read_csv pattern re_match files filename model_filter =
  Raise (KeyError "model").
Proof.
  intros Hfile Hne Hall. unfold read_csv. rewrite Hfile.
  apply filter_model_missing.
  destruct reader as [| r reader]; [congruence |].
  inversion Hall as [| ? ? Hr _]; subst. left. exact Hr.
Qed.

(** The loop over the file names accumulates the kept rows of each
    file after those of the files before it. *)
Theorem read_all_concatenates (filenames : list string) :
  (forall filename, In filename filenames ->
     exists reader, files filename = Some reader /\
                    Forall (has_column "model") reader) ->
  forall all_rows,
    read_all pattern re_match files model_filter filenames all_rows =
    Ok (all_rows ++ kept_rows re_match files model_filter filenames).
Proof.
  induction filenames as [| filename rest IH]; intros Hall all_rows; simpl.
  - rewrite app_nil_r. reflexivity.
  - destruct (Hall filename (or_introl eq_refl)) as (reader & Hfile & Hwf).
    assert (Hread : read_csv pattern re_match files filename model_filter =
                    Ok (filter (kept re_match model_filter) reader))
      by (unfold read_csv; rewrite Hfile; apply filter_model_filter, Hwf).
    rewrite Hread. simpl.
    rewrite IH by (intros f Hf; apply Hall; right; exact Hf).
    rewrite Hfile, app_assoc. reflexivity.
Qed.

(** The first file that cannot be opened ends the loop with
    [FileNotFoundError] for that file. *)
Theorem read_all_stops_at_missing_file (before after : list string)
  (missing : string) :
  (forall filename, In filename before ->
     exists reader, files filename = Some reader /\
                    Forall (has_column "model") reader) ->
  files missing = None ->
  forall all_rows,
    read_all pattern re_match files model_filter
      (before ++ missing :: after) all_rows =
    Raise (FileNotFoundError missing).
Proof.
  induction before as [| filename rest IH]; intros Hall Hmissing all_rows;
    simpl.
  - unfold read_csv. rewrite Hmissing. reflexivity.
  - destruct (Hall filename (or_introl eq_refl)) as (reader & Hfile & Hwf).
    assert (Hread : read_csv pattern re_match files filename model_filter =
                    Ok (filter (kept re_match model_filter) reader))
      by (unfold read_csv; rewrite Hfile; apply filter_model_filter, Hwf).
    rewrite Hread. simpl.
    apply IH; [| exact Hmissing].
    intros f Hf. apply Hall. right. exact Hf.
Qed.

End ReadCsvProperties.

Section ReadCsvRuns.

Import Aggregate Beyond Fixtures.

Lemma read_csv_keeps_matching_rows_witness :
  read_csv string literal_match two_files "a.csv" "gpt" =
  Ok (filter (kept literal_match "gpt") [gpt4_entry1; llama_entry1]).
Proof.
  apply (read_csv_keeps_matching_rows string literal_match two_files "gpt"
           "a.csv" [gpt4_entry1; llama_entry1]).
  - reflexivity.
  - repeat constructor; eexists; reflexivity.
Defined.

Lemma read_csv_missing_model_witness :
  read_csv string literal_match
    (fun _ => Some [no_model_row; no_model_row]) "a.csv" "llama" =
  Raise (KeyError "model").
Proof.
  apply (read_csv_missing_model string literal_match
           (fun _ => Some [no_model_row; no_model_row]) "llama" "a.csv"
           [no_model_row; no_model_row]).
  - reflexivity.
  - discriminate.
  - repeat constructor; intros [v Hv]; discriminate Hv.
Defined.

Lemma read_all_concatenates_witness :
  read_all string literal_match two_files "gpt" ["a.csv"; "b.csv"] [] =
  Ok ([] ++ kept_rows literal_match two_files "gpt" ["a.csv"; "b.csv"]).
Proof.
  apply (read_all_concatenates string literal_match two_files "gpt"
           ["a.csv"; "b.csv"]).
  intros filename [<- | [<- | []]]; eexists; (split; [reflexivity |]);
    repeat constructor; eexists; reflexivity.
Defined.

Lemma read_all_stops_at_missing_file_witness :
  read_all string literal_match two_files "gpt"
    (["a.csv"] ++ "c.csv" :: ["b.csv"]) [] =
  Raise (FileNotFoundError "c.csv").
Proof.
  apply (read_all_stops_at_missing_file string literal_match two_files "gpt"
           ["a.csv"] ["b.csv"] "c.csv").
  - intros filename [<- | []]. eexists. split; [reflexivity |].
    repeat constructor; eexists; reflexivity.
  - reflexivity.
Defined.

End ReadCsvRuns.

(** ** Grouping and counting in the aggregator *)

Section StatsProperties.

Import Aggregate Beyond.

Lemma concat_values_append_at {V : Type} (d : dict (list V)) (k : string)
  (v : V) :
  Permutation (List.concat (values (append_at d k v))) (v :: List.concat (values d)).
Proof.
  induction d as [| [k0 vs] rest IH]; simpl.
  - reflexivity.
  - destruct (String.eqb k0 k); simpl.
    + rewrite <- app_assoc. simpl. symmetry. apply Permutation_middle.
    + etransitivity; [apply Permutation_app_head, IH |].
      symmetry. apply Permutation_middle.
Qed.

Lemma group_rows_concat (rows : list row) :
  forall entries d,
    group_rows entries rows = Ok d ->
    Permutation (List.concat (values d)) (List.concat (values entries) ++ rows).
Proof.
  induction rows as [| r rest IH]; simpl; intros entries d H.
  - injection H as <-. rewrite app_nil_r. reflexivity.
  - destruct (getitem r "entry_index") as [k | e]; [| discriminate].
    etransitivity; [exact (IH _ _ H) |].
    etransitivity;
      [apply Permutation_app_tail, concat_values_append_at |].
    simpl. apply Permutation_middle.
Qed.

Lemma get_In {V : Type} (d : dict V) (k : string) (v default : V) :
  NoDup (keys d) -> In (k, v) d -> get d k default = v.
Proof.
  induction d as [| [k0 v0] rest IH]; simpl; intros Hnd Hin; [contradiction |].
  inversion Hnd as [| ? ? Hnotin Hrest]; subst. rewrite get_cons.
  destruct Hin as [Heq | Hin].
  - injection Heq as -> ->. rewrite String.eqb_refl. reflexivity.
  - destruct (String.eqb_spec k0 k) as [-> | _]; [| exact (IH Hrest Hin)].
    destruct Hnotin. apply in_map_iff. exists (k, v). split; [reflexivity |].
    exact Hin.
Qed.

(** The grouping loop partitions the rows: no key is repeated, the
    groups together hold the rows and nothing else, and the group of a
    key is, in order of appearance, the rows with that [entry_index];
    no group is empty. *)
Theorem group_rows_partitions (rows : list row) (d : dict (list row)) :
  group_rows [] rows = Ok d ->
  NoDup (keys d) /\
  Permutation (List.concat (values d)) rows /\
  forall k g, In (k, g) d -> g = filter (in_entry k) rows /\ g <> [].
Proof.
  intros Hd.
  destruct (group_rows_spec rows [] (group_rows_Ok _ _ _ Hd))
    as (d' & Hd' & Hget & Hkeys & Hnd).
  assert (d' = d) by congruence. subst d'.
  specialize (Hnd (NoDup_nil _)).
  split; [exact Hnd |]. split; [exact (group_rows_concat _ _ _ Hd) |].
  intros k g Hin.
  assert (Hg : g = filter (in_entry k) rows)
    by (rewrite <- (get_In d k g [] Hnd Hin); apply Hget).
  split; [exact Hg |].
  assert (Hk : In k (keys d))
    by (apply in_map_iff; exists (k, g); split; [reflexivity | exact Hin]).
  apply Hkeys in Hk. destruct Hk as [[] | Hk].
  apply in_map_iff in Hk. destruct Hk as (r & Hr & Hrin).
  intros Hnil.
  assert (Hf : In r (filter (in_entry k) rows))
    by (apply filter_In; split; [exact Hrin | apply String.eqb_eq, Hr]).
  rewrite <- Hg, Hnil in Hf. exact Hf.
Qed.

Lemma group_rows_missing_index (rows : list row) :
  forall entries,
    Exists (fun r => ~ has_column "entry_index" r) rows ->
    group_rows entries rows = Raise (KeyError "entry_index").
Proof.
  induction rows as [| r rest IH]; intros entries Hex; [inversion Hex |].
  simpl. destruct (getitem r "entry_index") as [k | e] eqn:E.
  - apply IH. inversion Hex as [? ? Hr | ? ? Hrest]; subst; [| exact Hrest].
    destruct Hr. exists k. exact E.
  - rewrite (getitem_Raise _ _ _ E). reflexivity.
Qed.

(** A row without an [entry_index] column makes
    [calculate_aggregate_stats] raise [KeyError('entry_index')],
    whatever the other rows hold. *)
Theorem calculate_aggregate_stats_missing_index (rows : list row) :
  Exists (fun r => ~ has_column "entry_index" r) rows ->
  calculate_aggregate_stats rows = Raise (KeyError "entry_index").
Proof.
  intros Hex. unfold calculate_aggregate_stats.
  rewrite (group_rows_missing_index rows [] Hex). reflexivity.
Qed.

Lemma existsb_same {A : Type} (f : A -> bool) (l l' : list A) :
  (forall x, In x l <-> In x l') -> existsb f l = existsb f l'.
Proof.
  intros Hsame.
  destruct (existsb f l) eqn:E; destruct (existsb f l') eqn:E';
    try reflexivity.
  - apply existsb_exists in E. destruct E as (x & Hin & Hx).
    assert (existsb f l' = true)
      by (apply existsb_exists; exists x; split; [apply Hsame |]; assumption).
    congruence.
  - apply existsb_exists in E'. destruct E' as (x & Hin & Hx).
    assert (existsb f l = true)
      by (apply existsb_exists; exists x; split; [apply Hsame |]; assumption).
    congruence.
Qed.

Lemma accuracy_of_same_rows (field : string) (rows rows' : list row) :
  (forall r, In r rows <-> In r rows') ->
  accuracy_of field rows = accuracy_of field rows'.
Proof.
  intros Hsame.
  assert (Hperm : Permutation (entry_indices rows) (entry_indices rows')).
  { apply NoDup_Permutation; try apply NoDup_nodup.
    intros k. unfold entry_indices, set_of. rewrite !nodup_In, !in_map_iff.
    split; intros (r & Hr & Hin); exists r; (split; [exact Hr |]);
      apply Hsame; exact Hin. }
  assert (Hc : correct_groups field rows = correct_groups field rows').
  { unfold correct_groups. apply count_Permutation; [exact Hperm |].
    intros k. unfold group_correct. apply existsb_same.
    intros r. rewrite !filter_In. rewrite (Hsame r). reflexivity. }
  unfold accuracy_of. rewrite (Permutation_length Hperm), Hc. reflexivity.
Qed.

(** The statistics depend on which rows there are, not on how often a
    row occurs or in which order: two lists with the same rows give
    the same triple. *)
Theorem calculate_aggregate_stats_ignores_repeats (rows rows' : list row) :
  Forall aggregator_row rows ->
  (forall r, In r rows <-> In r rows') ->
  calculate_aggregate_stats rows = calculate_aggregate_stats rows'.
Proof.
  intros Hwf Hsame.
  assert (Hwf' : Forall aggregator_row rows').
  { apply Forall_forall. intros r Hr. rewrite Forall_forall in Hwf.
    apply Hwf, Hsame, Hr. }
  rewrite (calculate_aggregate_stats_spec rows Hwf).
  rewrite (calculate_aggregate_stats_spec rows' Hwf').
  rewrite !(accuracy_of_same_rows _ rows rows' Hsame). reflexivity.
Qed.

End StatsProperties.

Section StatsRuns.

Import Aggregate Beyond Fixtures.

Lemma group_rows_partitions_witness :
  let d := [("1", [gpt4_entry1; llama_entry1]); ("2", [gpt4_entry2])] in
  NoDup (keys d) /\
  Permutation (List.concat (values d)) [gpt4_entry1; gpt4_entry2; llama_entry1] /\
  forall k g, In (k, g) d ->
    g = filter (in_entry k) [gpt4_entry1; gpt4_entry2; llama_entry1] /\
    g <> [].
Proof.
  apply (group_rows_partitions [gpt4_entry1; gpt4_entry2; llama_entry1]).
  reflexivity.
Defined.

Lemma calculate_aggregate_stats_missing_index_witness :
  calculate_aggregate_stats [gpt4_entry1; no_index_row] =
  Raise (KeyError "entry_index").
Proof.
  apply (calculate_aggregate_stats_missing_index [gpt4_entry1; no_index_row]).
  right. left. intros [v Hv]. discriminate Hv.
Defined.

Lemma calculate_aggregate_stats_ignores_repeats_witness :
  calculate_aggregate_stats [gpt4_entry1; gpt4_entry2] =
  calculate_aggregate_stats [gpt4_entry2; gpt4_entry1; gpt4_entry2].
Proof.
  apply (calculate_aggregate_stats_ignores_repeats
           [gpt4_entry1; gpt4_entry2] [gpt4_entry2; gpt4_entry1; gpt4_entry2]).
  - repeat constructor; eexists; reflexivity.
  - intros r. simpl. intuition.
Defined.

End StatsRuns.

(** ** When an accuracy is 0 and when it is 1 *)

Section AccuracyExtremes.

Import Aggregate Beyond.

Lemma is_true_getitem (field : string) (r : row) :
  is_true field r = true <-> getitem r field = Ok "true".
Proof.
  unfold is_true, get. destruct (getitem r field) as [v | e].
  - rewrite String.eqb_eq. split; congruence.
  - simpl. split; discriminate.
Qed.

Lemma filter_length_full {A : Type} (f : A -> bool) (l : list A) :
  List.length (filter f l) = List.length l <->
  forall x, In x l -> f x = true.
Proof.
  induction l as [| a l IH]; simpl.
  - split; [intros _ x [] | reflexivity].
  - pose proof (filter_length_le f l) as Hle.
    destruct (f a) eqn:Ha; simpl.
    + split.
      * intros H x [<- | Hx]; [exact Ha |]. apply IH; [lia | exact Hx].
      * intros H. f_equal. apply IH. intros x Hx. apply H. right. exact Hx.
    + split; [lia |]. intros H.
      specialize (H a (or_introl eq_refl)). congruence.
Qed.

Lemma filter_length_zero {A : Type} (f : A -> bool) (l : list A) :
  List.length (filter f l) = 0 <-> forall x, In x l -> f x = false.
Proof.
  induction l as [| a l IH]; simpl.
  - split; [intros _ x [] | reflexivity].
  - destruct (f a) eqn:Ha; simpl.
    + split; [discriminate |]. intros H.
      specialize (H a (or_introl eq_refl)). congruence.
    + rewrite IH. split.
      * intros H x [<- | Hx]; [exact Ha | exact (H x Hx)].
      * intros H x Hx. apply H. right. exact Hx.
Qed.

Lemma group_correct_true (field : string) (rows : list row) (k : string) :
  group_correct field rows k = true <->
  exists r, In r rows /\ entry_index_of r = k /\
            getitem r field = Ok "true".
Proof.
  unfold group_correct. rewrite existsb_exists. split.
  - intros (r & Hin & Ht). apply filter_In in Hin. destruct Hin as [Hin Hk].
    exists r. repeat split; [exact Hin | apply String.eqb_eq, Hk |].
    apply is_true_getitem, Ht.
  - intros (r & Hin & Hk & Ht). exists r. split.
    + apply filter_In. split; [exact Hin | apply String.eqb_eq, Hk].
    + apply is_true_getitem, Ht.
Qed.

Lemma in_entry_indices (rows : list row) (k : string) :
  In k (entry_indices rows) <-> exists r, In r rows /\ entry_index_of r = k.
Proof.
  unfold entry_indices, set_of. rewrite nodup_In, in_map_iff.
  split; intros (r & H1 & H2); exists r; split; assumption.
Qed.

Lemma correct_groups_zero (field : string) (rows : list row) :
  correct_groups field rows = 0 <-> never_true field rows.
Proof.
  unfold correct_groups, never_true. rewrite filter_length_zero. split.
  - intros H r Hin Ht.
    assert (Hk : In (entry_index_of r) (entry_indices rows))
      by (apply in_entry_indices; exists r; split; [exact Hin | reflexivity]).
    specialize (H _ Hk).
    assert (group_correct field rows (entry_index_of r) = true)
      by (apply group_correct_true; exists r; repeat split; assumption).
    congruence.
  - intros H k _. destruct (group_correct field rows k) eqn:E; [| reflexivity].
    apply group_correct_true in E. destruct E as (r & Hin & _ & Ht).
    destruct (H r Hin Ht).
Qed.

Lemma correct_groups_full (field : string) (rows : list row) :
  correct_groups field rows = List.length (entry_indices rows) <->
  true_in_every_entry field rows.
Proof.
  unfold correct_groups, true_in_every_entry. rewrite filter_length_full.
  split.
  - intros H r Hin.
    assert (Hk : In (entry_index_of r) (entry_indices rows))
      by (apply in_entry_indices; exists r; split; [exact Hin | reflexivity]).
    apply H, group_correct_true in Hk. exact Hk.
  - intros H k Hk. apply in_entry_indices in Hk.
    destruct Hk as (r & Hin & <-). apply group_correct_true, H, Hin.
Qed.

Lemma no_entry_indices (rows : list row) :
  List.length (entry_indices rows) = 0 <-> rows = [].
Proof.
  split.
  - intros H. destruct rows as [| r rows]; [reflexivity |].
    assert (Hk : In (entry_index_of r) (entry_indices (r :: rows)))
      by (apply in_entry_indices; exists r; split;
          [left; reflexivity | reflexivity]).
    destruct (entry_indices (r :: rows)); [destruct Hk | discriminate].
  - intros ->. reflexivity.
Qed.

Lemma ratio_extremes (c t : nat) :
  0 < t ->
  ((inject_Z (Z.of_nat c) / inject_Z (Z.of_nat t) == 0)%Q <-> c = 0) /\
  ((inject_Z (Z.of_nat c) / inject_Z (Z.of_nat t) == 1)%Q <-> c = t).
Proof.
  intros Ht.
  assert (Hnz : ~ (inject_Z (Z.of_nat t) == 0)%Q)
    by (unfold Qeq; simpl; lia).
  assert (Hshift : forall q : Q,
             (inject_Z (Z.of_nat c) / inject_Z (Z.of_nat t) == q)%Q <->
             (inject_Z (Z.of_nat c) == q * inject_Z (Z.of_nat t))%Q).
  { intros q. split; intros H.
    - rewrite <- H, Qmult_comm. symmetry. apply Qmult_div_r, Hnz.
    - rewrite H. apply Qdiv_mult_l, Hnz. }
  split; rewrite Hshift.
  - rewrite Qmult_0_l. unfold Qeq. simpl. lia.
  - rewrite Qmult_1_l. unfold Qeq. simpl. lia.
Qed.

Lemma accuracy_of_extremes (field : string) (rows : list row) :
  ((accuracy_of field rows == 0)%Q <-> never_true field rows) /\
  ((accuracy_of field rows == 1)%Q <->
   rows <> [] /\ true_in_every_entry field rows).
Proof.
  unfold accuracy_of.
  destruct (List.length (entry_indices rows) =? 0) eqn:Hzero.
  - apply Nat.eqb_eq in Hzero. apply no_entry_indices in Hzero. subst rows.
    split.
    + split; [intros _ r [] | reflexivity].
    + split; [discriminate | intros [H _]; congruence].
  - apply Nat.eqb_neq in Hzero.
    assert (Hpos : 0 < List.length (entry_indices rows)) by lia.
    destruct (ratio_extremes (correct_groups field rows) _ Hpos) as [H0 H1].
    split.
    + rewrite H0. apply correct_groups_zero.
    + rewrite H1, correct_groups_full. split; [| intros [_ H]; exact H].
      intros H. split; [| exact H]. intros ->. apply Hzero. reflexivity.
Qed.

(** An accuracy returned by [calculate_aggregate_stats] is 0 exactly
    when no row holds ["true"] in its field, and 1 exactly when there
    are rows and every entry has a row that holds ["true"] in it. *)
Theorem accuracy_is_zero_or_one_when (rows : list row) :
  Forall aggregator_row rows ->
  exists accuracy accuracy_aligned accuracy_stripped,
    calculate_aggregate_stats rows =
      Ok (accuracy, accuracy_aligned, accuracy_stripped) /\
    ((accuracy == 0)%Q <-> never_true "correct" rows) /\
    ((accuracy == 1)%Q <->
     rows <> [] /\ true_in_every_entry "correct" rows) /\
    ((accuracy_aligned == 0)%Q <-> never_true "correct_aligned" rows) /\
    ((accuracy_aligned == 1)%Q <->
     rows <> [] /\ true_in_every_entry "correct_aligned" rows) /\
    ((accuracy_stripped == 0)%Q <-> never_true "correct_stripped" rows) /\
    ((accuracy_stripped == 1)%Q <->
     rows <> [] /\ true_in_every_entry "correct_stripped" rows).
Proof.
  intros Hwf.
  exists (accuracy_of "correct" rows), (accuracy_of "correct_aligned" rows),
    (accuracy_of "correct_stripped" rows).
  split; [exact (calculate_aggregate_stats_spec rows Hwf) |].
  destruct (accuracy_of_extremes "correct" rows) as [H1 H2].
  destruct (accuracy_of_extremes "correct_aligned" rows) as [H3 H4].
  destruct (accuracy_of_extremes "correct_stripped" rows) as [H5 H6].
  exact (conj H1 (conj H2 (conj H3 (conj H4 (conj H5 H6))))).
Qed.

Lemma accuracy_is_zero_or_one_when_witness :
  exists accuracy accuracy_aligned accuracy_stripped,
    calculate_aggregate_stats
      [Fixtures.gpt4_entry1; Fixtures.gpt4_entry2] =
      Ok (accuracy, accuracy_aligned, accuracy_stripped) /\
    ((accuracy == 0)%Q <->
     never_true "correct" [Fixtures.gpt4_entry1; Fixtures.gpt4_entry2]) /\
    ((accuracy == 1)%Q <->
     [Fixtures.gpt4_entry1; Fixtures.gpt4_entry2] <> [] /\
     true_in_every_entry "correct"
       [Fixtures.gpt4_entry1; Fixtures.gpt4_entry2]) /\
    ((accuracy_aligned == 0)%Q <->
     never_true "correct_aligned"
       [Fixtures.gpt4_entry1; Fixtures.gpt4_entry2]) /\
    ((accuracy_aligned == 1)%Q <->
     [Fixtures.gpt4_entry1; Fixtures.gpt4_entry2] <> [] /\
     true_in_every_entry "correct_aligned"
       [Fixtures.gpt4_entry1; Fixtures.gpt4_entry2]) /\
    ((accuracy_stripped == 0)%Q <->
     never_true "correct_stripped"
       [Fixtures.gpt4_entry1; Fixtures.gpt4_entry2]) /\
    ((accuracy_stripped == 1)%Q <->
     [Fixtures.gpt4_entry1; Fixtures.gpt4_entry2] <> [] /\
     true_in_every_entry "correct_stripped"
       [Fixtures.gpt4_entry1; Fixtures.gpt4_entry2]).
Proof.
  apply (accuracy_is_zero_or_one_when
           [Fixtures.gpt4_entry1; Fixtures.gpt4_entry2]).
  repeat constructor; eexists; reflexivity.
Defined.

End AccuracyExtremes.

(** ** The exit codes of the aggregator *)

Section AggregatorExit.

Import Aggregate.

Variable pattern : Type.
Variable re_compile : string -> pattern + string.
Variable re_match : pattern -> string -> bool.
Variable files : string -> option (list row).

(** The exit status of the aggregator is 0 exactly when it has
    written its two records, the header first; otherwise it is 1 and
    no record has been written; and when the aggregator ends in an
    uncaught exception, the script has written nothing at all. *)
Theorem aggregator_all_or_nothing (argv : list string) :
  let p := Aggregate.main pattern re_compile re_match files argv in
  (exit_code (status p) = 0 <->
   exists cells, stdout p = [WriteCells header; WriteCells cells]) /\
  (exit_code (status p) <> 0 ->
   exit_code (status p) = 1 /\
   forall cells, ~ In (WriteCells cells) (stdout p)) /\
  (forall e, status p = Uncaught e -> stdout p = [] /\ stderr p = []).
Proof.
  assert (Hcells : forall out,
             (exists cells, out = [WriteCells header; WriteCells cells]) ->
             out <> [] /\ forall line, out <> [Print line]).
  { intros out [cells ->]. split; [| intros line]; discriminate. }
  unfold Aggregate.main.
  destruct (Nat.ltb_spec (List.length argv) 3) as [Hlt | Hge];
    cbn [status stdout stderr exit_code].
  { split; [| split; [| discriminate]].
    - split; [discriminate |]. intros H. destruct (Hcells _ H) as [_ Hp].
      destruct (Hp usage). reflexivity.
    - intros _. split; [reflexivity |].
      intros cells [H | []]. discriminate H. }
  destruct (re_compile (nth 1 argv "")) as [model_filter | msg];
    cbn [status stdout stderr exit_code].
  2:{ split; [| split; [| discriminate]].
      - split; [discriminate |]. intros H. destruct (Hcells _ H) as [Hp _].
        destruct Hp. reflexivity.
      - intros _. split; [reflexivity | intros cells []]. }
  destruct (read_all pattern re_match files model_filter (skipn 2 argv) [])
    as [all_rows | e]; cbn [status stdout stderr exit_code].
  2:{ split; [| split; [| auto]].
      - split; [discriminate |]. intros H. destruct (Hcells _ H) as [Hp _].
        destruct Hp. reflexivity.
      - intros _. split; [reflexivity | intros cells []]. }
  destruct (calculate_aggregate_stats all_rows) as [stats | e];
    cbn [status stdout stderr exit_code].
  2:{ split; [| split; [| auto]].
      - split; [discriminate |]. intros H. destruct (Hcells _ H) as [Hp _].
        destruct Hp. reflexivity.
      - intros _. split; [reflexivity | intros cells []]. }
  split; [| split; [| discriminate]].
  - split; [eauto | reflexivity].
  - intros H. destruct H. reflexivity.
Qed.

End AggregatorExit.

(** ** What [find_differing_rows] returns *)

Section DifferProperties.

Import Diff Beyond.

Variable fields : list string.

Lemma compare_entries_flat_map (grouped_rows1 grouped_rows2 : dict (list row))
  (indices : list string) :
  forall differing_rows out,
    compare_entries grouped_rows1 grouped_rows2 fields indices differing_rows
    = Ok out ->
    out = differing_rows
          ++ flat_map (appended grouped_rows1 grouped_rows2 fields) indices /\
    forall idx, In idx indices ->
      exists v, entry_verdict (get grouped_rows1 idx [])
                  (get grouped_rows2 idx []) fields = Ok v.
Proof.
  induction indices as [| idx0 indices IH]; simpl; intros acc out H.
  - injection H as <-. rewrite app_nil_r. split; [reflexivity | intros idx []].
  - unfold appended at 1.
    destruct (entry_verdict (get grouped_rows1 idx0 [])
                (get grouped_rows2 idx0 []) fields) as [v | e] eqn:Hv;
      simpl in H; [| discriminate].
    destruct (IH _ _ H) as [Hout Heach]. split.
    + rewrite Hout. destruct v as [row2 |]; [| reflexivity].
      rewrite <- app_assoc. reflexivity.
    + intros idx [<- | Hin]; [eauto | exact (Heach idx Hin)].
Qed.

Lemma NoDup_map_flat_map {A B : Type} (key : B -> A) (f : A -> list B)
  (ks : list A) :
  NoDup ks ->
  (forall k x, In x (f k) -> key x = k) ->
  (forall k, NoDup (map key (f k))) ->
  NoDup (map key (flat_map f ks)).
Proof.
  intros Hnd Hkey Hone. induction Hnd as [| k ks Hnotin _ IH]; simpl.
  - constructor.
  - rewrite map_app. apply NoDup_app; [apply Hone | exact IH |].
    intros a Ha Ha'. apply in_map_iff in Ha, Ha'.
    destruct Ha as (x & <- & Hx). destruct Ha' as (y & Hy & Hyin).
    apply in_flat_map in Hyin. destruct Hyin as (k' & Hk' & Hyk').
    rewrite (Hkey _ _ Hx) in Hy. rewrite (Hkey _ _ Hyk') in Hy.
    subst k'. exact (Hnotin Hk').
Qed.

(** What [find_differing_rows] computes, once the rows are grouped. *)
Lemma find_differing_rows_flat_map (order : set_iteration)
  (rows1 rows2 out : list row) :
  find_differing_rows order rows1 rows2 fields = Ok out ->
  exists grouped_rows1 grouped_rows2,
    group_rows [] rows1 = Ok grouped_rows1 /\
    group_rows [] rows2 = Ok grouped_rows2 /\
    (forall k, get grouped_rows1 k [] = entry_rows k rows1) /\
    (forall k, get grouped_rows2 k [] = entry_rows k rows2) /\
    out = flat_map (appended grouped_rows1 grouped_rows2 fields)
            (order (set_of (keys grouped_rows1 ++ keys grouped_rows2))) /\
    forall idx,
      In idx (keys grouped_rows1 ++ keys grouped_rows2) ->
      exists v, entry_verdict (get grouped_rows1 idx [])
                  (get grouped_rows2 idx []) fields = Ok v.
Proof.
  unfold find_differing_rows. intros H.
  destruct (group_rows [] rows1) as [d1 | e] eqn:Hd1; simpl in H;
    [| discriminate].
  destruct (group_rows [] rows2) as [d2 | e] eqn:Hd2; simpl in H;
    [| discriminate].
  destruct (group_rows_spec rows1 [] (group_rows_Ok _ _ _ Hd1))
    as (d1' & Hd1' & Hget1 & _).
  destruct (group_rows_spec rows2 [] (group_rows_Ok _ _ _ Hd2))
    as (d2' & Hd2' & Hget2 & _).
  assert (d1' = d1) by congruence. assert (d2' = d2) by congruence.
  subst d1' d2'.
  destruct (compare_entries_flat_map _ _ _ _ _ H) as [Hout Heach].
  exists d1, d2. repeat split; try assumption.
  intros idx Hin. apply Heach, in_iteration, Hin.
Qed.

(** The rows returned do not depend on the order in which the set of
    entry indices is visited; only their order does. *)
Theorem find_differing_rows_any_order (order order' : set_iteration)
  (rows1 rows2 out : list row) :
  find_differing_rows order rows1 rows2 fields = Ok out ->
  exists out',
    find_differing_rows order' rows1 rows2 fields = Ok out' /\
    Permutation out out'.
Proof.
  intros H.
  destruct (find_differing_rows_flat_map _ _ _ _ H)
    as (d1 & d2 & Hd1 & Hd2 & _ & _ & Hout & Heach).
  unfold find_differing_rows. rewrite Hd1, Hd2. simpl.
  destruct (compare_entries_total fields d1 d2
              (order' (set_of (keys d1 ++ keys d2)))) with (differing_rows := @nil row)
    as [out' Hout'].
  { intros idx Hin. apply Heach. apply in_iteration in Hin. exact Hin. }
  exists out'. split; [exact Hout' |].
  destruct (compare_entries_flat_map _ _ _ _ _ Hout') as [-> _].
  rewrite Hout. simpl. apply Permutation_flat_map.
  etransitivity; [symmetry; apply iter_perm | apply iter_perm].
Qed.

(** At most one row is returned for an entry: the rows returned have
    pairwise different [entry_index] values. *)
Theorem find_differing_rows_one_row_per_entry (order : set_iteration)
  (rows1 rows2 out : list row) :
  find_differing_rows order rows1 rows2 fields = Ok out ->
  NoDup (map entry_index_of out).
Proof.
  intros H.
  destruct (find_differing_rows_flat_map _ _ _ _ H)
    as (d1 & d2 & _ & _ & Hget1 & Hget2 & -> & _).
  apply NoDup_map_flat_map.
  - apply (Permutation_NoDup (iter_perm order _)). apply NoDup_nodup.
  - intros k r. unfold appended. rewrite Hget1, Hget2.
    destruct (entry_verdict (entry_rows k rows1) (entry_rows k rows2) fields)
      as [[row2 |] | e] eqn:Hv; try contradiction.
    intros [<- | []].
    destruct (entry_verdict_Some _ _ _ _ Hv) as (_ & Heq & _ & _ & Hlast).
    destruct (all_equal_true _ _ _ Heq) as (_ & Hne & _).
    destruct (entry_rows_index k rows2 _ (last_In _ [] Hne)) as [_ Hidx].
    etransitivity; [exact (f_equal entry_index_of Hlast) | exact Hidx].
  - intros k. unfold appended.
    destruct (entry_verdict _ _ fields) as [[row2 |] | e]; simpl;
      repeat constructor; intros [].
Qed.

(** Every row returned is a row of the second file whose requested
    fields all hold ["true"], and in the first file every row of the
    same entry holds ["false"] in all of them. *)
Theorem find_differing_rows_returns_flipped_rows (order : set_iteration)
  (rows1 rows2 out : list row) (r : row) :
  find_differing_rows order rows1 rows2 fields = Ok out ->
  In r out ->
  In r rows2 /\
  fields_are "true" fields r /\
  forall r1, In r1 rows1 -> entry_index_of r1 = entry_index_of r ->
             fields_are "false" fields r1.
Proof.
  intros H Hin. apply (find_differing_rows_In _ _ _ _ _ H) in Hin.
  destruct Hin as (idx & Hv).
  destruct (entry_verdict_Some _ _ _ _ Hv) as (_ & Heq & H1 & H2 & Hlast).
  destruct (all_equal_true _ _ _ Heq) as (_ & Hne & _).
  assert (Hl : In r (entry_rows idx rows2))
    by (rewrite Hlast; apply last_In, Hne).
  destruct (entry_rows_index idx rows2 r Hl) as [Hr2 Hidx].
  rewrite Forall_forall in H1, H2.
  split; [exact Hr2 |]. split; [exact (H2 r Hl) |].
  intros r1 Hr1 Hsame. apply H1. apply filter_In. split; [exact Hr1 |].
  apply in_entry_index. congruence.
Qed.

End DifferProperties.

(** ** What [find_differing_rows] never returns, and how it fails *)

Section DifferEdges.

Import Diff Beyond.

Variable order : set_iteration.

Lemma fields_disagree (field : string) (rest : list string) (group : list row) :
  group <> [] ->
  Forall (fields_are "false" (field :: rest)) group ->
  Forall (fields_are "true" (field :: rest)) group ->
  False.
Proof.
  intros Hne H1 H2. destruct group as [| r group]; [congruence |].
  inversion H1 as [| ? ? Hf _]; inversion H2 as [| ? ? Ht _]; subst.
  specialize (Hf field (or_introl eq_refl)).
  specialize (Ht field (or_introl eq_refl)). congruence.
Qed.

(** With at least one requested field, an entry reported from the
    first file to the second is not reported from the second to the
    first. *)
Theorem find_differing_rows_one_way (field : string) (rest : list string)
  (rows1 rows2 out out' : list row) (idx : string) :
  find_differing_rows order rows1 rows2 (field :: rest) = Ok out ->
  find_differing_rows order rows2 rows1 (field :: rest) = Ok out' ->
  reported idx out ->
  ~ reported idx out'.
Proof.
  intros H H' Hrep Hrep'.
  apply (reported_iff _ _ _ _ _ _ H) in Hrep. destruct Hrep as [r Hv].
  apply (reported_iff _ _ _ _ _ _ H') in Hrep'. destruct Hrep' as [r' Hv'].
  destruct (entry_verdict_Some _ _ _ _ Hv) as (_ & Heq & _ & Ht & _).
  destruct (entry_verdict_Some _ _ _ _ Hv') as (_ & _ & Hf & _).
  destruct (all_equal_true _ _ _ Heq) as (_ & Hne & _).
  exact (fields_disagree _ _ _ Hne Hf Ht).
Qed.

(** With at least one requested field, a file compared with itself
    has no differing row. *)
Theorem find_differing_rows_same_file (field : string) (rest : list string)
  (rows out : list row) :
  find_differing_rows order rows rows (field :: rest) = Ok out ->
  out = [].
Proof.
  intros H. destruct out as [| r out]; [reflexivity |].
  assert (Hin : In r (r :: out)) by (left; reflexivity).
  apply (find_differing_rows_In _ _ _ _ _ H) in Hin.
  destruct Hin as (idx & Hv).
  destruct (entry_verdict_Some _ _ _ _ Hv) as (_ & Heq & Hf & Ht & _).
  destruct (all_equal_true _ _ _ Heq) as (_ & Hne & _).
  destruct (fields_disagree _ _ _ Hne Hf Ht).
Qed.

Lemma rows_agree_no_fields (first_row : row) (tail : list row) :
  rows_agree first_row tail [] = Ok true.
Proof.
  induction tail as [| r tail IH]; simpl; [reflexivity | exact IH].
Qed.

(** Without requested fields nothing is compared: an entry is reported
    exactly when it occurs in the second file and has as many rows in
    the first. *)
Theorem find_differing_rows_no_fields (rows1 rows2 out : list row)
  (idx : string) :
  find_differing_rows order rows1 rows2 [] = Ok out ->
  reported idx out <->
  entry_rows idx rows2 <> [] /\
  List.length (entry_rows idx rows1) = List.length (entry_rows idx rows2).
Proof.
  intros H. rewrite (reported_iff _ _ _ _ _ _ H). split.
  - intros [r Hv].
    destruct (entry_verdict_Some _ _ _ _ Hv) as (Hlen & Heq & _).
    destruct (all_equal_true _ _ _ Heq) as (_ & Hne & _).
    split; assumption.
  - intros [Hne Hlen]. eexists. apply entry_verdict_differs.
    + exact Hlen.
    + unfold all_equal, group_consistent.
      destruct (entry_rows idx rows1) as [| r1 g1] eqn:E1;
        destruct (entry_rows idx rows2) as [| r2 g2] eqn:E2;
        simpl in Hlen; try discriminate; [congruence |].
      rewrite !rows_agree_no_fields. reflexivity.
    + apply Forall_forall. intros r _ f [].
    + apply Forall_forall. intros r _ f [].
Qed.

Lemma group_rows_Raise (rows : list row) :
  forall entries e,
    group_rows entries rows = Raise e -> e = KeyError "entry_index".
Proof.
  induction rows as [| r rest IH]; simpl; intros entries e H;
    [discriminate |].
  destruct (getitem r "entry_index") as [k | e'] eqn:E.
  - exact (IH _ _ H).
  - injection H as <-. exact (getitem_Raise _ _ _ E).
Qed.

(** A row without an [entry_index] column, in either file, makes
    [find_differing_rows] raise [KeyError('entry_index')]. *)
Theorem find_differing_rows_missing_index (fields : list string)
  (rows1 rows2 : list row) :
  Exists (fun r => ~ has_column "entry_index" r) rows1 \/
  Exists (fun r => ~ has_column "entry_index" r) rows2 ->
  find_differing_rows order rows1 rows2 fields =
  Raise (KeyError "entry_index").
Proof.
  intros Hex. unfold find_differing_rows.
  destruct (group_rows [] rows1) as [d1 | e] eqn:Hd1.
  - destruct Hex as [Hex | Hex].
    + rewrite (group_rows_missing_index rows1 [] Hex) in Hd1. discriminate.
    + simpl. rewrite (group_rows_missing_index rows2 [] Hex). reflexivity.
  - simpl. rewrite (group_rows_Raise _ _ _ Hd1). reflexivity.
Qed.

End DifferEdges.

(** ** The only exception of [find_differing_rows] *)

Section DifferExceptions.

Import Diff Beyond.

Variable fields : list string.

Lemma all_fields_equal_Raise (first_row r : row) (fs : list string) (e : exn) :
  all_fields_equal first_row r fs = Raise e -> is_KeyError e.
Proof.
  induction fs as [| f fs IH]; simpl; [discriminate |].
  destruct (getitem first_row f) as [a | e1] eqn:Ea; simpl.
  - destruct (getitem r f) as [b | e2] eqn:Eb; simpl.
    + destruct (String.eqb a b); [exact IH | discriminate].
    + intros H. injection H as <-. eexists. exact (getitem_Raise _ _ _ Eb).
  - intros H. injection H as <-. eexists. exact (getitem_Raise _ _ _ Ea).
Qed.

Lemma rows_agree_Raise (first_row : row) (tail : list row) (e : exn) :
  rows_agree first_row tail fields = Raise e -> is_KeyError e.
Proof.
  induction tail as [| r tail IH]; simpl; [discriminate |].
  destruct (all_fields_equal first_row r fields) as [[|] | e1] eqn:E; simpl.
  - exact IH.
  - discriminate.
  - intros H. injection H as <-. exact (all_fields_equal_Raise _ _ _ _ E).
Qed.

Lemma all_equal_Raise (group1 group2 : list row) (e : exn) :
  group1 <> [] -> group2 <> [] ->
  all_equal group1 group2 fields = Raise e -> is_KeyError e.
Proof.
  intros H1 H2. unfold all_equal, group_consistent.
  destruct group1 as [| r1 g1]; [congruence |].
  destruct group2 as [| r2 g2]; [congruence |].
  destruct (rows_agree r1 g1 fields) as [[|] | e1] eqn:E; simpl.
  - apply rows_agree_Raise.
  - discriminate.
  - intros H. injection H as <-. exact (rows_agree_Raise _ _ _ E).
Qed.

Lemma any_field_not_Raise (r : row) (expected : string) (fs : list string)
  (e : exn) :
  any_field_not r expected fs = Raise e -> is_KeyError e.
Proof.
  induction fs as [| f fs IH]; simpl; [discriminate |].
  destruct (getitem r f) as [v | e1] eqn:Ev; simpl.
  - destruct (negb (String.eqb v expected)); [discriminate | exact IH].
  - intros H. injection H as <-. eexists. exact (getitem_Raise _ _ _ Ev).
Qed.

Lemma compare_pairs_Raise (pairs : list (row * row)) :
  forall row2_var e,
    compare_pairs pairs fields row2_var = Raise e -> is_KeyError e.
Proof.
  induction pairs as [| [r1 r2] pairs IH]; simpl; intros row2_var e;
    [discriminate |].
  destruct (any_field_not r1 "false" fields) as [[|] | e1] eqn:E1; simpl.
  - discriminate.
  - destruct (any_field_not r2 "true" fields) as [[|] | e2] eqn:E2; simpl.
    + discriminate.
    + apply IH.
    + intros H. injection H as <-. exact (any_field_not_Raise _ _ _ _ E2).
  - intros H. injection H as <-. exact (any_field_not_Raise _ _ _ _ E1).
Qed.

(** For an entry that occurs in a file, the loop body raises nothing
    but [KeyError]: [group[0]] is not read on an empty group and
    [row2] is bound when it is appended. *)
Lemma entry_verdict_Raise (group1 group2 : list row) (e : exn) :
  group1 <> [] \/ group2 <> [] ->
  entry_verdict group1 group2 fields = Raise e -> is_KeyError e.
Proof.
  intros Hne. unfold entry_verdict.
  destruct (Nat.eqb_spec (List.length group1) (List.length group2))
    as [Hlen | _]; simpl; [| discriminate].
  assert (Hne1 : group1 <> [])
    by (destruct group1, group2; simpl in Hlen; try discriminate;
        destruct Hne; congruence).
  assert (Hne2 : group2 <> [])
    by (destruct group1, group2; simpl in Hlen; try discriminate;
        destruct Hne; congruence).
  destruct (all_equal group1 group2 fields) as [[|] | e1] eqn:Heq; simpl.
  - destruct (compare_pairs (combine group1 group2) fields None)
      as [[[d1 d2] row2] | e2] eqn:Hcmp; simpl.
    + destruct (d1 && d2) eqn:Hd; [| discriminate].
      destruct (compare_pairs_both fields _ _ _ _ _ _ Hlen Hcmp Hd)
        as (_ & _ & ->).
      destruct group2; [congruence | discriminate].
    + intros H. injection H as <-. exact (compare_pairs_Raise _ _ _ Hcmp).
  - discriminate.
  - intros H. injection H as <-.
    exact (all_equal_Raise _ _ _ Hne1 Hne2 Heq).
Qed.

Lemma compare_entries_Raise (grouped_rows1 grouped_rows2 : dict (list row))
  (indices : list string) :
  (forall idx, In idx indices ->
     get grouped_rows1 idx [] <> [] \/ get grouped_rows2 idx [] <> []) ->
  forall differing_rows e,
    compare_entries grouped_rows1 grouped_rows2 fields indices differing_rows
    = Raise e ->
    is_KeyError e.
Proof.
  induction indices as [| idx0 indices IH]; simpl; intros Hall acc e;
    [discriminate |].
  destruct (entry_verdict (get grouped_rows1 idx0 [])
              (get grouped_rows2 idx0 []) fields) as [v | e1] eqn:Hv; simpl.
  - apply IH. intros idx Hin. apply Hall. right. exact Hin.
  - intros H. injection H as <-.
    exact (entry_verdict_Raise _ _ _ (Hall idx0 (or_introl eq_refl)) Hv).
Qed.

(** [find_differing_rows] raises nothing but [KeyError]: neither the
    [IndexError] of [group[0]] nor an unbound [row2] can occur,
    whatever the rows are. *)
Theorem find_differing_rows_raises_only_KeyError (order : set_iteration)
  (rows1 rows2 : list row) (e : exn) :
  find_differing_rows order rows1 rows2 fields = Raise e ->
  is_KeyError e.
Proof.
  unfold find_differing_rows.
  destruct (group_rows [] rows1) as [d1 | e1] eqn:Hd1; simpl.
  2:{ intros H. injection H as <-. eexists.
      exact (group_rows_Raise _ _ _ Hd1). }
  destruct (group_rows [] rows2) as [d2 | e2] eqn:Hd2; simpl.
  2:{ intros H. injection H as <-. eexists.
      exact (group_rows_Raise _ _ _ Hd2). }
  destruct (group_rows_spec rows1 [] (group_rows_Ok _ _ _ Hd1))
    as (d1' & Hd1' & Hget1 & Hkeys1 & _).
  destruct (group_rows_spec rows2 [] (group_rows_Ok _ _ _ Hd2))
    as (d2' & Hd2' & Hget2 & Hkeys2 & _).
  assert (d1' = d1) by congruence. assert (d2' = d2) by congruence.
  subst d1' d2'.
  apply compare_entries_Raise. intros idx Hin.
  apply in_iteration, in_app_or in Hin.
  assert (Hgroup : forall rows, In idx (map entry_index_of rows) ->
                                filter (in_entry idx) rows <> []).
  { intros rows Hidx. apply in_map_iff in Hidx.
    destruct Hidx as (r & Hr & Hrin). intros Hnil.
    assert (Hf : In r (filter (in_entry idx) rows))
      by (apply filter_In; split; [exact Hrin | apply String.eqb_eq, Hr]).
    rewrite Hnil in Hf. exact Hf. }
  rewrite Hget1, Hget2. simpl.
  destruct Hin as [Hin | Hin]; [left | right]; apply Hgroup.
  - apply Hkeys1 in Hin. destruct Hin as [[] | Hin]. exact Hin.
  - apply Hkeys2 in Hin. destruct Hin as [[] | Hin]. exact Hin.
Qed.

End DifferExceptions.

(** ** The checks and the output of the differ *)

Section DifferMainProperties.

Import Diff Beyond.

Variable order : set_iteration.
Variable files : string -> option (list row).
Variable argv : list string.

Lemma missing_fields_In (rows1 rows2 : list row) (fields : list string)
  (f : string) :
  In f (missing_fields rows1 rows2 fields) <->
  In f fields /\ forall r, In r (rows1 ++ rows2) -> ~ In f (keys r).
Proof.
  unfold missing_fields, set_of. rewrite filter_In, nodup_In.
  rewrite negb_true_iff.
  assert (Hall : existsb (String.eqb f)
                   (nodup string_dec (flat_map keys (rows1 ++ rows2))) = false
                 <-> forall r, In r (rows1 ++ rows2) -> ~ In f (keys r)).
  { split.
    - intros Hno r Hr Hf.
      assert (existsb (String.eqb f)
                (nodup string_dec (flat_map keys (rows1 ++ rows2))) = true).
      { apply existsb_exists. exists f. split; [| apply String.eqb_refl].
        apply nodup_In, in_flat_map. exists r. split; assumption. }
      congruence.
    - intros Hno.
      destruct (existsb (String.eqb f) _) eqn:E; [| reflexivity].
      apply existsb_exists in E. destruct E as (f' & Hin & Heq).
      apply String.eqb_eq in Heq. subst f'.
      apply nodup_In, in_flat_map in Hin. destruct Hin as (r & Hr & Hf).
      destruct (Hno r Hr Hf). }
  rewrite Hall. reflexivity.
Qed.

(** The differ refuses the requested fields that are a column of no
    row of either result file: it names them on standard output and
    exits with code 1.  Since a field is always requested, two result
    files without rows are refused. *)
Theorem differ_rejects_unknown_fields (rows1 rows2 test_rows : list row) :
  5 <= List.length argv ->
  files (nth 2 argv "") = Some rows1 ->
  files (nth 3 argv "") = Some rows2 ->
  files (nth 1 argv "") = Some test_rows ->
  let missing := missing_fields rows1 rows2 (skipn 4 argv) in
  (forall f, In f missing <->
             In f (skipn 4 argv) /\
             forall r, In r (rows1 ++ rows2) -> ~ In f (keys r)) /\
  (missing <> [] ->
   Diff.main order files argv =
   Process [PrintMissing "Error: Fields not found in CSV files: "
                         (order missing)] [] (Exit 1)) /\
  (rows1 ++ rows2 = [] -> missing <> []).
Proof.
  intros Hlen H1 H2 Ht missing. split; [| split].
  - intros f. apply missing_fields_In.
  - intros Hne. unfold Diff.main.
    assert (Hge : (List.length argv <? 5) = false) by (apply Nat.ltb_ge; lia).
    rewrite Hge. unfold read_csv. cbv zeta. rewrite H1, H2, Ht.
    cbn [Py.bind]. fold missing.
    destruct missing as [| f fs]; [congruence | reflexivity].
  - subst missing. intros Hempty Hnil.
    assert (Hl : List.length (skipn 4 argv) = List.length argv - 4)
      by apply length_skipn.
    destruct (skipn 4 argv) as [| f fs]; [simpl in Hl; lia |].
    assert (Hin : In f (missing_fields rows1 rows2 (f :: fs))).
    { apply missing_fields_In. split; [left; reflexivity |].
      rewrite Hempty. intros r []. }
    rewrite Hnil in Hin. exact Hin.
Qed.

(** The files are read in the order second argument, third argument,
    first argument: the first of them that cannot be opened ends the
    differ with [FileNotFoundError], nothing written. *)
Theorem differ_reads_results_before_reference :
  5 <= List.length argv ->
  (files (nth 2 argv "") = None ->
   Diff.main order files argv =
   Process [] [] (Uncaught (FileNotFoundError (nth 2 argv "")))) /\
  (forall rows1,
      files (nth 2 argv "") = Some rows1 ->
      files (nth 3 argv "") = None ->
      Diff.main order files argv =
      Process [] [] (Uncaught (FileNotFoundError (nth 3 argv "")))) /\
  (forall rows1 rows2,
      files (nth 2 argv "") = Some rows1 ->
      files (nth 3 argv "") = Some rows2 ->
      files (nth 1 argv "") = None ->
      Diff.main order files argv =
      Process [] [] (Uncaught (FileNotFoundError (nth 1 argv "")))).
Proof.
  intros Hlen.
  assert (Hge : (List.length argv <? 5) = false) by (apply Nat.ltb_ge; lia).
  unfold Diff.main, read_csv. rewrite Hge. cbv zeta. repeat split.
  - intros ->. reflexivity.
  - intros rows1 -> ->. reflexivity.
  - intros rows1 rows2 -> -> ->. reflexivity.
Qed.

End DifferMainProperties.

Section WriterProperties.

Import Diff Beyond.

Variable test_rows : list row.

Lemma search_reference_In (commit : string) (rows : list row) (t : row) :
  search_reference commit rows = Ok (Some t) -> In t rows.
Proof.
  induction rows as [| t0 rows IH]; simpl; [discriminate |].
  destruct (getitem t0 "Description") as [desc | e]; simpl; [| discriminate].
  destruct (contains commit desc).
  - intros H. injection H as <-. left. reflexivity.
  - intros H. right. exact (IH H).
Qed.

Lemma dicts_written_app (out out' : list out_event) :
  dicts_written (out ++ out') = dicts_written out ++ dicts_written out'.
Proof.
  induction out as [| ev out IH]; simpl; [reflexivity |].
  destruct ev; simpl; rewrite IH; reflexivity.
Qed.

Lemma writerow_Ok (fieldnames : list string) (r : row) (ev : out_event) :
  writerow fieldnames r = Ok ev -> ev = WriteDict r.
Proof.
  unfold writerow. destruct (fits fieldnames r); [| discriminate].
  intros H. injection H as <-. reflexivity.
Qed.

(** What the writing loop keeps true, whether it ends or raises: one
    row written per row passed, each a reference row or the row
    itself, and [count] raised once per reference row at most. *)
Lemma write_rows_invariant (fieldnames : list string)
  (differing_rows : list row) :
  forall written count out res,
    write_rows fieldnames test_rows differing_rows written count
    = (out, res) ->
    (forall r, In r (dicts_written out) ->
               In r (dicts_written written) \/ In r test_rows \/
               In r differing_rows) /\
    forall n, res = Ok n ->
              rows_written out =
                rows_written written + List.length differing_rows /\
              count <= n <= count + List.length differing_rows.
Proof.
  induction differing_rows as [| d ds IH]; simpl; intros written count out res H.
  - injection H as <- <-. split; [auto |].
    intros n Hn. injection Hn as <-. lia.
  - destruct (commit <- getitem d "patch_commit_hash" ;;
              search_reference commit test_rows) as [[t |] | e] eqn:Hs.
    + destruct (writerow fieldnames t) as [ev | e] eqn:Hw.
      2:{ injection H as <- <-. split; [auto | discriminate]. }
      apply writerow_Ok in Hw. subst ev.
      destruct (IH _ _ _ _ H) as [Hin Hcount]. split.
      * intros r Hr. destruct (Hin r Hr) as [Hw | [Ht | Hd]]; auto.
        rewrite dicts_written_app in Hw. apply in_app_or in Hw.
        destruct Hw as [Hw | [<- | []]]; auto.
        right. left.
        destruct (getitem d "patch_commit_hash") as [commit | e'];
          simpl in Hs; [| discriminate].
        exact (search_reference_In _ _ _ Hs).
      * intros n Hn. destruct (Hcount n Hn) as [Hrows Hle].
        rewrite rows_written_app in Hrows. simpl in Hrows. lia.
    + destruct (writerow fieldnames d) as [ev | e] eqn:Hw.
      2:{ injection H as <- <-. split; [auto | discriminate]. }
      apply writerow_Ok in Hw. subst ev.
      destruct (IH _ _ _ _ H) as [Hin Hcount]. split.
      * intros r Hr. destruct (Hin r Hr) as [Hw | [Ht | Hd]]; auto.
        rewrite dicts_written_app in Hw. apply in_app_or in Hw.
        destruct Hw as [Hw | [<- | []]]; auto.
      * intros n Hn. destruct (Hcount n Hn) as [Hrows Hle].
        rewrite rows_written_app in Hrows. simpl in Hrows. lia.
    + injection H as <- <-. split; [auto | discriminate].
Qed.

End WriterProperties.

Section DifferOutputProperties.

Import Diff Beyond.

Variable order : set_iteration.
Variable files : string -> option (list row).
Variable argv : list string.
Variables rows1 rows2 test_rows differing_rows : list row.

Lemma differing_rows_from_second_file (fields : list string)
  (out : list row) (r : row) :
  find_differing_rows order rows1 rows2 fields = Ok out ->
  In r out -> In r rows2.
Proof.
  intros H Hin. apply (find_differing_rows_In _ _ _ _ _ H) in Hin.
  destruct Hin as (idx & Hv).
  destruct (entry_verdict_Some _ _ _ _ Hv) as (_ & Heq & _ & _ & Hlast).
  destruct (all_equal_true _ _ _ Heq) as (_ & Hne & _).
  assert (Hl : In r (entry_rows idx rows2))
    by (rewrite Hlast; apply last_In, Hne).
  apply (entry_rows_index idx rows2 r Hl).
Qed.

Lemma report_invariant (differing test : list row) :
  (forall r, In r (dicts_written (stdout (report differing test))) ->
             In r test \/ In r differing) /\
  (status (report differing test) = Exit 0 ->
   exists n,
     stderr (report differing test) = [str n] /\
     n <= rows_written (stdout (report differing test)) /\
     rows_written (stdout (report differing test)) = List.length differing) /\
  status (report differing test) <> Exit 1.
Proof.
  unfold report. destruct differing as [| d ds].
  { simpl. repeat split; try discriminate; [intros r [] |].
    intros _. exists 0. repeat split. lia. }
  destruct test as [| first_row rest].
  { simpl. repeat split; try discriminate. intros r []. }
  destruct (write_rows (keys first_row) (first_row :: rest) (d :: ds)
              [WriteHeader (keys first_row)] 0) as [out res] eqn:Hw.
  destruct (write_rows_invariant _ _ _ _ _ _ _ Hw) as [Hin Hcount].
  destruct res as [n | e]; simpl; repeat split; try discriminate.
  - intros r Hr. destruct (Hin r Hr) as [[] | H]; exact H.
  - intros _. exists n. destruct (Hcount n eq_refl) as [Hrows Hle].
    simpl in Hrows. repeat split; [| exact Hrows]. simpl in Hle. lia.
  - intros r Hr. destruct (Hin r Hr) as [[] | H]; exact H.
Qed.

(** The differ writes only rows it has read: every row it hands to the
    writer is a row of the reference file or a row of the second
    result file. *)
Theorem differ_writes_only_rows_read :
  passes_checks order files argv rows1 rows2 test_rows differing_rows ->
  forall r,
    In r (dicts_written (stdout (Diff.main order files argv))) ->
    In r test_rows \/ In r rows2.
Proof.
  intros Hrun r Hr. rewrite (main_report _ _ _ _ _ _ _ Hrun) in Hr.
  destruct (report_invariant differing_rows test_rows) as [Hin _].
  destruct (Hin r Hr) as [H | H]; [left; exact H | right].
  destruct Hrun as (_ & _ & _ & _ & _ & Hfind).
  exact (differing_rows_from_second_file _ _ _ Hfind H).
Qed.

(** When the differ ends normally, it has written one row per
    differing row and the integer it prints does not exceed the number
    of rows written. *)
Theorem differ_count_at_most_rows_written :
  passes_checks order files argv rows1 rows2 test_rows differing_rows ->
  status (Diff.main order files argv) = Exit 0 ->
  exists n,
    stderr (Diff.main order files argv) = [str n] /\
    n <= rows_written (stdout (Diff.main order files argv)) /\
    rows_written (stdout (Diff.main order files argv)) =
    List.length differing_rows.
Proof.
  intros Hrun. rewrite (main_report _ _ _ _ _ _ _ Hrun).
  apply report_invariant.
Qed.

(** The exit status of the differ is 0 exactly when it has printed
    its count on standard error, and 1 otherwise. *)
Theorem differ_exit_status :
  let p := Diff.main order files argv in
  (exit_code (status p) = 0 <-> exists n, stderr p = [str n]) /\
  (exit_code (status p) <> 0 ->
   exit_code (status p) = 1 /\ stderr p = []).
Proof.
  assert (Hreport : forall d t,
             (exit_code (status (report d t)) = 0 <->
              exists n, stderr (report d t) = [str n]) /\
             (exit_code (status (report d t)) <> 0 ->
              exit_code (status (report d t)) = 1 /\
              stderr (report d t) = [])).
  { intros d t. unfold report. destruct d as [| d0 ds].
    { cbn [status stderr exit_code]. split.
      - split; [intros _; exists 0; reflexivity | reflexivity].
      - intros H. destruct H. reflexivity. }
    destruct t as [| first_row rest].
    { cbn. split; [| auto]. split; [discriminate |].
      intros [n H]. discriminate H. }
    destruct (write_rows (keys first_row) (first_row :: rest) (d0 :: ds)
                [WriteHeader (keys first_row)] 0) as [out [n | e]];
      cbn [status stderr exit_code].
    - split.
      + split; [intros _; exists n; reflexivity | reflexivity].
      + intros H. destruct H. reflexivity.
    - split; [| auto]. split; [discriminate |].
      intros [n H]. discriminate H. }
  assert (Hexit : forall out,
             (exit_code (Exit 1) = 0 <->
              exists n, stderr (Process out [] (Exit 1)) = [str n]) /\
             (exit_code (Exit 1) <> 0 ->
              exit_code (Exit 1) = 1 /\
              stderr (Process out [] (Exit 1)) = [])).
  { intros out. cbn. split; [| auto]. split; [discriminate |].
    intros [n H]. discriminate H. }
  assert (Huncaught : forall e,
             (exit_code (Uncaught e) = 0 <->
              exists n, stderr (Process [] [] (Uncaught e)) = [str n]) /\
             (exit_code (Uncaught e) <> 0 ->
              exit_code (Uncaught e) = 1 /\
              stderr (Process [] [] (Uncaught e)) = [])).
  { intros e. cbn. split; [| auto]. split; [discriminate |].
    intros [n H]. discriminate H. }
  unfold Diff.main.
  destruct (Nat.ltb_spec (List.length argv) 5) as [Hlt | Hge];
    [apply Hexit |].
  unfold read_csv. cbv zeta.
  destruct (files (nth 2 argv "")) as [r1 |]; cbn [Py.bind];
    [| apply Huncaught].
  destruct (files (nth 3 argv "")) as [r2 |]; cbn [Py.bind];
    [| apply Huncaught].
  destruct (files (nth 1 argv "")) as [t |]; cbn [Py.bind];
    [| apply Huncaught].
  destruct (missing_fields r1 r2 (skipn 4 argv)) as [| f fs];
    [| apply Hexit].
  destruct (find_differing_rows order r1 r2 (skipn 4 argv)) as [d | e];
    [apply Hreport | apply Huncaught].
Qed.

End DifferOutputProperties.

Section EmptyHash.

Import Diff Beyond.

Lemma contains_empty (haystack : string) : contains "" haystack = true.
Proof.
  destruct haystack; reflexivity.
Qed.

Lemma fits_own_keys (r : row) : fits (keys r) r = true.
Proof.
  unfold fits. apply forallb_forall. intros k Hk.
  apply existsb_exists. exists k. split; [exact Hk | apply String.eqb_refl].
Qed.

(** A differing row with an empty [patch_commit_hash] is always
    written as the first reference row, and counted: the empty string
    occurs in every [Description]. *)
Theorem empty_hash_takes_first_reference_row (first_row r : row)
  (rest more : list row) (written : list out_event) (count : nat) :
  getitem r "patch_commit_hash" = Ok "" ->
  has_column "Description" first_row ->
  write_rows (keys first_row) (first_row :: rest) (r :: more) written count =
  write_rows (keys first_row) (first_row :: rest) more
    (written ++ [WriteDict first_row]) (count + 1).
Proof.
  intros Hhash [desc Hdesc]. simpl.
  rewrite Hhash. simpl. rewrite Hdesc. simpl.
  rewrite contains_empty, (writerow_fits _ _ (fits_own_keys first_row)).
  reflexivity.
Qed.

End EmptyHash.

(** ** The differ beyond the specification, on concrete inputs *)

Section DifferPropertyRuns.

Import Diff Beyond Fixtures.

Lemma find_differing_rows_any_order_witness :
  exists out',
    find_differing_rows reverse_order [file1_row; entry6_false]
      [file2_row; entry6_true] ["field"] = Ok out' /\
    Permutation [file2_row; entry6_true] out'.
Proof.
  apply (find_differing_rows_any_order ["field"] insertion_order
           reverse_order [file1_row; entry6_false] [file2_row; entry6_true]
           [file2_row; entry6_true]).
  reflexivity.
Defined.

Lemma find_differing_rows_one_row_per_entry_witness :
  NoDup (map entry_index_of [file2_row; entry6_true]).
Proof.
  apply (find_differing_rows_one_row_per_entry ["field"] insertion_order
           [file1_row; file1_row; entry6_false]
           [file2_row; file2_row; entry6_true] [file2_row; entry6_true]).
  reflexivity.
Defined.

Lemma find_differing_rows_returns_flipped_rows_witness :
  In entry6_true [file2_row; entry6_true] /\
  fields_are "true" ["field"] entry6_true /\
  forall r1, In r1 [file1_row; entry6_false] ->
             entry_index_of r1 = entry_index_of entry6_true ->
             fields_are "false" ["field"] r1.
Proof.
  apply (find_differing_rows_returns_flipped_rows ["field"] insertion_order
           [file1_row; entry6_false] [file2_row; entry6_true]
           [file2_row; entry6_true] entry6_true).
  - reflexivity.
  - right. left. reflexivity.
Defined.

Lemma find_differing_rows_one_way_witness : ~ reported "5" [].
Proof.
  apply (find_differing_rows_one_way insertion_order "field" []
           [file1_row] [file2_row] [file2_row] [] "5").
  - reflexivity.
  - reflexivity.
  - exists file2_row. split; [left |]; reflexivity.
Defined.

Lemma find_differing_rows_same_file_witness :
  find_differing_rows insertion_order [file2_row; entry6_false]
    [file2_row; entry6_false] ["field"] = Ok [] /\
  @nil row = [].
Proof.
  split; [reflexivity |].
  apply (find_differing_rows_same_file insertion_order "field" []
           [file2_row; entry6_false] []).
  reflexivity.
Defined.

Lemma find_differing_rows_no_fields_witness :
  reported "5" [file1_row_true] <->
  entry_rows "5" [file1_row; file1_row_true] <> [] /\
  List.length (entry_rows "5" [file2_row; file2_row]) =
  List.length (entry_rows "5" [file1_row; file1_row_true]).
Proof.
  apply (find_differing_rows_no_fields insertion_order
           [file2_row; file2_row] [file1_row; file1_row_true]
           [file1_row_true] "5").
  reflexivity.
Defined.

Lemma find_differing_rows_missing_index_witness :
  find_differing_rows insertion_order [file1_row] [file2_row; no_index_row]
    ["field"] = Raise (KeyError "entry_index").
Proof.
  apply (find_differing_rows_missing_index insertion_order ["field"]
           [file1_row] [file2_row; no_index_row]).
  right. right. left. intros [v Hv]. discriminate Hv.
Defined.

Lemma find_differing_rows_raises_only_KeyError_witness :
  find_differing_rows insertion_order [file1_row] [file2_row] ["status"] =
    Raise (KeyError "status") /\
  is_KeyError (KeyError "status").
Proof.
  split; [reflexivity |].
  apply (find_differing_rows_raises_only_KeyError ["status"] insertion_order
           [file1_row] [file2_row] (KeyError "status")).
  reflexivity.
Defined.

Lemma differ_rejects_unknown_fields_witness :
  Diff.main insertion_order scenario_b
    ["ckpoint_diff.py"; "test.csv"; "file1.csv"; "file2.csv"; "field";
     "status"] =
  Process [PrintMissing "Error: Fields not found in CSV files: " ["status"]]
          [] (Exit 1).
Proof.
  apply (proj1 (proj2 (differ_rejects_unknown_fields insertion_order
                         scenario_b
                         ["ckpoint_diff.py"; "test.csv"; "file1.csv";
                          "file2.csv"; "field"; "status"]
                         [file1_row] [file2_row] [unrelated_reference]
                         ltac:(simpl; lia) eq_refl eq_refl eq_refl))).
  discriminate.
Defined.

Lemma differ_reads_results_before_reference_witness :
  Diff.main insertion_order (fun _ => None) scenario_b_argv =
  Process [] [] (Uncaught (FileNotFoundError "file1.csv")).
Proof.
  apply (proj1 (differ_reads_results_before_reference insertion_order
                  (fun _ => None) scenario_b_argv ltac:(simpl; lia))).
  reflexivity.
Defined.

Lemma differ_writes_only_rows_read_witness :
  In matching_reference [unrelated_reference; matching_reference] \/
  In matching_reference [file2_row].
Proof.
  apply (differ_writes_only_rows_read insertion_order with_match
           scenario_b_argv [file1_row] [file2_row]
           [unrelated_reference; matching_reference] [file2_row]).
  - unfold passes_checks. repeat split; try reflexivity; simpl; lia.
  - left. reflexivity.
Defined.

Lemma differ_count_at_most_rows_written_witness :
  exists n,
    stderr (Diff.main insertion_order scenario_b scenario_b_argv) = [str n] /\
    n <= rows_written
           (stdout (Diff.main insertion_order scenario_b scenario_b_argv)) /\
    rows_written
      (stdout (Diff.main insertion_order scenario_b scenario_b_argv)) =
    List.length [file2_row].
Proof.
  apply (differ_count_at_most_rows_written insertion_order scenario_b
           scenario_b_argv [file1_row] [file2_row] [unrelated_reference]
           [file2_row]).
  - unfold passes_checks. repeat split; try reflexivity; simpl; lia.
  - reflexivity.
Defined.

Lemma find_differing_rows_total_witness :
  exists out,
    find_differing_rows reverse_order [file1_row; entry6_false]
      [file2_row; file2_row; entry6_true] ["field"] = Ok out.
Proof.
  apply (find_differing_rows_total reverse_order ["field"]
           [file1_row; entry6_false] [file2_row; file2_row; entry6_true]).
  - repeat constructor; eexists; reflexivity.
  - repeat constructor; eexists; reflexivity.
Defined.

Lemma empty_hash_takes_first_reference_row_witness :
  write_rows (keys unrelated_reference)
    [unrelated_reference; matching_reference] [empty_hash_row]
    [WriteHeader (keys unrelated_reference)] 0 =
  write_rows (keys unrelated_reference)
    [unrelated_reference; matching_reference] []
    ([WriteHeader (keys unrelated_reference)]
       ++ [WriteDict unrelated_reference]) (0 + 1).
Proof.
  apply (empty_hash_takes_first_reference_row unrelated_reference
           empty_hash_row [matching_reference] []
           [WriteHeader (keys unrelated_reference)] 0).
  - reflexivity.
  - eexists. reflexivity.
Defined.

End DifferPropertyRuns.
